(** * A shallow embedding of [server.py]

    The request handler of the server ([RequestHandler.do_GET],
    [handle_file], [handle_error], [send_content]) and the rule classes
    ([case_default_page], [case_no_file], [case_existing_file],
    [case_always_fail]) are written as functions in a small state and
    exception monad.  The parts of the Python runtime they call
    ([str.strip], [str.lstrip], [str.endswith], [str.format],
    [os.path.join], [os.path.exists], [os.path.isfile], [open], the UTF-8
    codec) are modelled in the modules [Py] and [Posix].

    What the model takes for granted:
    - the filesystem does not change while one request is handled, and it
      has no symbolic links;
    - the calls on the transport ([send_response], [send_header],
      [end_headers], [wfile.write]) do not raise;
    - [self.path] and the other fields of the request hold code points
      below 256, as [http.server] decodes the request line;
    - the text [str(e)] of an exception, [sys.maxsize], and what a
      replacement field does with the value of its name under accessors,
      a conversion or a format specification, are left to a parameter of
      type [Py.runtime]; the scanning of a template, the look-up of every
      field name and the expansion of format specifications are not. *)

From Stdlib Require Import NArith ZArith List Bool Lia.
From Stdlib Require Import Strings.String Strings.Ascii Strings.Byte DecimalString.
From Stdlib Require HexadecimalString.
Import ListNotations.

(* ================================================================== *)
(** ** Python values: [str], [bytes], exceptions *)
(* ================================================================== *)

Module Py.

Local Open Scope N_scope.
Local Open Scope bool_scope.
Local Open Scope list_scope.

(** A Python [str] is a sequence of code points, a [bytes] object a
    sequence of octets. *)
Definition str := list N.
Definition bytes := list byte.

(** A string literal of the source.  The same function is the ISO-8859-1
    decoding that [http.server] applies to the request line: one code
    point per octet. *)
Definition lit (s : string) : str := map Byte.to_N (list_byte_of_string s).
Arguments lit s%_string.

Fixpoint str_eqb (a b : str) : bool :=
  match a, b with
  | [], [] => true
  | x :: a', y :: b' => N.eqb x y && str_eqb a' b'
  | _, _ => false
  end.

(** [str(n)] for a non-negative [int]. *)
Definition dec (n : N) : str := lit (NilZero.string_of_uint (N.to_uint n)).
Definition dec_nat (n : nat) : str := dec (N.of_nat n).

(** [str.isspace] on one code point (CPython's [_PyUnicode_IsWhitespace]). *)
Definition is_space (c : N) : bool :=
  ((9 <=? c) && (c <=? 13)) || ((28 <=? c) && (c <=? 32))
  || (c =? 133) || (c =? 160) || (c =? 5760)
  || ((8192 <=? c) && (c <=? 8202))
  || (c =? 8232) || (c =? 8233) || (c =? 8239) || (c =? 8287) || (c =? 12288).

Fixpoint drop_while (p : N -> bool) (s : str) : str :=
  match s with
  | [] => []
  | c :: s' => if p c then drop_while p s' else s
  end.

Definition mem (chars : str) (c : N) : bool := existsb (N.eqb c) chars.

(** [s.lstrip(chars)], [s.rstrip(chars)] and the argument-less [s.strip()]. *)
Definition lstrip (chars s : str) : str := drop_while (mem chars) s.
Definition rstrip_ws (s : str) : str := rev (drop_while is_space (rev s)).
Definition strip (s : str) : str := rstrip_ws (drop_while is_space s).

(** [s.endswith(suffix)] *)
Definition endswith (s suffix : str) : bool :=
  Nat.leb (List.length suffix) (List.length s)
  && str_eqb (skipn (List.length s - List.length suffix)%nat s) suffix.

(** [needle in hay], on any sequence type. *)
Section Contains.
Variable A : Type.
Variable eqb : A -> A -> bool.

Fixpoint starts_with (hay needle : list A) {struct needle} : bool :=
  match needle, hay with
  | [], _ => true
  | x :: needle', y :: hay' => eqb x y && starts_with hay' needle'
  | _ :: _, [] => false
  end.

Fixpoint contains (hay needle : list A) : bool :=
  starts_with hay needle
  || match hay with
     | [] => false
     | _ :: hay' => contains hay' needle
     end.
End Contains.
Arguments starts_with {A} eqb hay needle.
Arguments contains {A} eqb hay needle.

Definition str_contains := contains N.eqb.
Definition bytes_contains := contains Byte.eqb.

(** *** The UTF-8 codec *)

Definition byte_of (n : N) : byte :=
  match Byte.of_N n with Some b => b | None => x00 end.

(** One code point to its UTF-8 octets; [None] for a surrogate (and for a
    number that is no code point), where [str.encode] raises. *)
Definition encode_cp (c : N) : option bytes :=
  if c <? 128 then Some [byte_of c]
  else if c <? 2048 then
    Some [byte_of (192 + c / 64); byte_of (128 + c mod 64)]
  else if c <? 65536 then
    if (55296 <=? c) && (c <=? 57343) then None
    else Some [byte_of (224 + c / 4096); byte_of (128 + (c / 64) mod 64);
               byte_of (128 + c mod 64)]
  else if c <? 1114112 then
    Some [byte_of (240 + c / 262144); byte_of (128 + (c / 4096) mod 64);
          byte_of (128 + (c / 64) mod 64); byte_of (128 + c mod 64)]
  else None.

Fixpoint utf8_encode (s : str) : option bytes :=
  match s with
  | [] => Some []
  | c :: s' =>
      match encode_cp c, utf8_encode s' with
      | Some b, Some bs => Some (b ++ bs)
      | _, _ => None
      end
  end.

Definition is_cont (b : N) : bool := (128 <=? b) && (b <=? 191).
Definition cont (b : N) : N := b - 128.

(** Strict decoding: overlong forms, surrogates, values above U+10FFFF,
    stray continuation octets and truncated sequences are errors. *)
Fixpoint utf8_decode (b : bytes) : option str :=
  match b with
  | [] => Some []
  | b0 :: r0 =>
      let n0 := Byte.to_N b0 in
      if n0 <? 128 then option_map (cons n0) (utf8_decode r0)
      else if (192 <=? n0) && (n0 <=? 223) then
        match r0 with
        | b1 :: r1 =>
            let n1 := Byte.to_N b1 in
            let c := (n0 - 192) * 64 + cont n1 in
            if is_cont n1 && (128 <=? c)
            then option_map (cons c) (utf8_decode r1) else None
        | _ => None
        end
      else if (224 <=? n0) && (n0 <=? 239) then
        match r0 with
        | b1 :: b2 :: r2 =>
            let n1 := Byte.to_N b1 in
            let n2 := Byte.to_N b2 in
            let c := (n0 - 224) * 4096 + cont n1 * 64 + cont n2 in
            if is_cont n1 && is_cont n2 && (2048 <=? c)
               && negb ((55296 <=? c) && (c <=? 57343))
            then option_map (cons c) (utf8_decode r2) else None
        | _ => None
        end
      else if (240 <=? n0) && (n0 <=? 247) then
        match r0 with
        | b1 :: b2 :: b3 :: r3 =>
            let n1 := Byte.to_N b1 in
            let n2 := Byte.to_N b2 in
            let n3 := Byte.to_N b3 in
            let c := (n0 - 240) * 262144 + cont n1 * 4096
                     + cont n2 * 64 + cont n3 in
            if is_cont n1 && is_cont n2 && is_cont n3
               && (65536 <=? c) && (c <? 1114112)
            then option_map (cons c) (utf8_decode r3) else None
        | _ => None
        end
      else None
  end.

(** *** Exceptions *)

Inductive oserror := ENOENT | EACCES | EISDIR | ENOTDIR | ENXIO.

Inductive exn :=
| OSError (errno : oserror) (filename : str)     (* IOError is OSError *)
| UnicodeDecodeError (input : bytes)
| UnicodeEncodeError (input : str)
| LookupError (key : str)      (* KeyError; IndexError for an empty or numeric field *)
| ValueError (msg : str)
| FormatFieldError (field : str)  (* whatever a conversion, format spec or accessor raises *)
| AttributeError (obj attr : str)
| ServerException (msg : str).

(** [isinstance(e, IOError)] and [isinstance(e, ServerException)] *)
Definition is_IOError (e : exn) : bool :=
  match e with OSError _ _ => true | _ => false end.
Definition is_ServerException (e : exn) : bool :=
  match e with ServerException _ => true | _ => false end.

(** *** [str.format] with keyword arguments only *)

Inductive pyval := PStr (s : str) | PInt (n : N).

Definition py_str (v : pyval) : str :=
  match v with PStr s => s | PInt n => dec n end.

Definition kwargs := list (str * pyval).

Fixpoint lookup (kw : kwargs) (k : str) : option pyval :=
  match kw with
  | [] => None
  | (k', v) :: kw' => if str_eqb k' k then Some v else lookup kw' k
  end.

(** What the handler takes from the interpreter without fixing it: the
    text [str(e)] of an exception, the largest index [sys.maxsize], and
    what a replacement field does with a value once it has been looked
    up: whether the attribute and index accessors after the name can be
    followed, and the text of the value under the accessors, the
    conversion and the expanded format specification ([None] when that
    raises). *)
Record runtime := {
  str_of_exn : exn -> str;
  maxsize : N;
  accessors_ok : pyval -> str -> bool;
  format_rich_field : pyval -> str -> option N -> str -> option str
}.

Definition brace_l : N := 123.
Definition brace_r : N := 125.
Definition bracket_l : N := 91.
Definition bracket_r : N := 93.
Definition colon : N := 58.
Definition bang : N := 33.
Definition dot : N := 46.

(** The code points of the digit zero of every script (Unicode 14.0, the
    database of CPython 3.11); the nine that follow each are its digits
    one to nine. *)
Definition decimal_zeros : list N :=
  [48; 1632; 1776; 1984; 2406; 2534; 2662; 2790; 2918; 3046; 3174; 3302;
   3430; 3558; 3664; 3792; 3872; 4160; 4240; 6112; 6160; 6470; 6608; 6784;
   6800; 6992; 7088; 7232; 7248; 42528; 43216; 43264; 43472; 43504; 43600;
   44016; 65296; 66720; 68912; 69734; 69872; 69942; 70096; 70384; 70736;
   70864; 71248; 71360; 71472; 71904; 72016; 72784; 73040; 73120; 92768;
   92864; 93008; 120782; 120792; 120802; 120812; 120822; 123200; 123632;
   125264; 130032].

(** [Py_UNICODE_TODECIMAL] *)
Definition to_decimal (c : N) : option N :=
  match find (fun z => (z <=? c) && (c <? z + 10)) decimal_zeros with
  | Some z => Some (c - z)
  | None => None
  end.

Inductive field_index := NotAnIndex | TooManyDigits | Index (n : N).

(** CPython's [get_integer]: the digits are read from the left, and the
    overflow is found before a later character that is no digit. *)
Fixpoint get_integer_from (max acc : N) (s : str) : field_index :=
  match s with
  | [] => Index acc
  | c :: s' =>
      match to_decimal c with
      | None => NotAnIndex
      | Some d =>
          if (max - d) / 10 <? acc then TooManyDigits
          else get_integer_from max (acc * 10 + d) s'
      end
  end.

Definition get_integer (max : N) (s : str) : field_index :=
  match s with
  | [] => NotAnIndex
  | _ :: _ => get_integer_from max 0 s
  end.

(** [field_name_split]: the name up to the first [.] or [[], and the
    accessors after it. *)
Fixpoint field_name_split (name : str) : str * str :=
  match name with
  | [] => ([], [])
  | c :: name' =>
      if (c =? dot) || (c =? bracket_l) then ([], name)
      else let (first, rest) := field_name_split name' in (c :: first, rest)
  end.

(** [get_field_object] up to the accessors, for a call without positional
    arguments: an empty name and a number index the empty tuple
    ([IndexError]), any other name is a key of the keyword arguments
    ([KeyError] when it is not there). *)
Definition field_value (max : N) (kw : kwargs) (first : str) : exn + pyval :=
  match get_integer max first with
  | TooManyDigits =>
      inl (ValueError (lit "Too many decimal digits in format string"))
  | Index _ => inl (LookupError first)
  | NotAnIndex =>
      match first with
      | [] => inl (LookupError first)
      | _ :: _ =>
          match lookup kw first with
          | Some v => inr v
          | None => inl (LookupError first)
          end
      end
  end.

Definition unknown_conversion (c : N) : str :=
  if (32 <? c) && (c <? 127) then lit "Unknown conversion specifier " ++ [c]
  else lit "Unknown conversion specifier \x"
       ++ lit (HexadecimalString.NilZero.string_of_uint (N.to_hex_uint c)).

(** The conversions are [!r], [!s] and [!a]. *)
Definition bad_conversion (conv : option N) : option N :=
  match conv with
  | Some c => if mem (lit "rsa") c then None else Some c
  | None => None
  end.

(** CPython's [output_markup]: the value of the name, then the accessors,
    then the conversion, then the format specification, which is
    formatted itself ([expand]) when it holds a brace, then the text. *)
Definition render_field (rt : runtime) (kw : kwargs) (expand : str -> exn + str)
    (name : str) (conv : option N) (spec : str) : exn + str :=
  let (first, rest) := field_name_split name in
  match field_value (maxsize rt) kw first with
  | inl e => inl e
  | inr v =>
      if match rest with [] => false | _ :: _ => negb (accessors_ok rt v rest) end
      then inl (FormatFieldError name)
      else
        match bad_conversion conv with
        | Some c => inl (ValueError (unknown_conversion c))
        | None =>
            match (if mem spec brace_l then expand spec else inr spec) with
            | inl e => inl e
            | inr spec' =>
                match rest, conv, spec' with
                | [], None, [] => inr (py_str v)
                | _, _, _ =>
                    match format_rich_field rt v rest conv spec' with
                    | Some s => inr s
                    | None => inl (FormatFieldError name)
                    end
                end
            end
        end
  end.

Definition prepend (s : str) (r : exn + str) : exn + str :=
  match r with inl e => inl e | inr out => inr (s ++ out) end.

Inductive field_state :=
| InName (name : str)
| InIndex (name : str)
| InConv (name : str)
| AfterConv (name : str) (conv : N)
| InSpec (name : str) (conv : option N) (depth : nat) (spec : str).

(** The scanner of CPython's [MarkupIterator_next] and [parse_field],
    over what is done with a character of literal text, with a
    replacement field, with an error of the scanner, and at the end. *)
Section Scanner.
Variable R : Type.
Variable literal : N -> R -> R.
Variable field : str -> option N -> str -> R -> R.
Variable fail : str -> R.
Variable done : R.

Fixpoint scan_text (tpl : str) : R :=
  match tpl with
  | [] => done
  | c :: rest =>
      if c =? brace_l then
        match rest with
        | [] => fail (lit "Single '{' encountered in format string")
        | c' :: rest' =>
            if c' =? brace_l then literal brace_l (scan_text rest')
            else scan_field (InName []) rest
        end
      else if c =? brace_r then
        match rest with
        | c' :: rest' =>
            if c' =? brace_r then literal brace_r (scan_text rest')
            else fail (lit "Single '}' encountered in format string")
        | [] => fail (lit "Single '}' encountered in format string")
        end
      else literal c (scan_text rest)
  end

with scan_field (st : field_state) (tpl : str) : R :=
  match tpl with
  | [] =>
      match st with
      | InName _ | InIndex _ => fail (lit "expected '}' before end of string")
      | InConv _ =>
          fail (lit "end of string while looking for conversion specifier")
      | AfterConv _ _ | InSpec _ _ _ _ => fail (lit "unmatched '{' in format spec")
      end
  | c :: rest =>
      match st with
      | InName name =>
          if c =? brace_l then fail (lit "unexpected '{' in field name")
          else if c =? bracket_l then scan_field (InIndex (name ++ [c])) rest
          else if c =? brace_r then field name None [] (scan_text rest)
          else if c =? colon then scan_field (InSpec name None 1 []) rest
          else if c =? bang then scan_field (InConv name) rest
          else scan_field (InName (name ++ [c])) rest
      | InIndex name =>
          if c =? bracket_r then scan_field (InName (name ++ [c])) rest
          else scan_field (InIndex (name ++ [c])) rest
      | InConv name => scan_field (AfterConv name c) rest
      | AfterConv name conv =>
          if c =? brace_r then field name (Some conv) [] (scan_text rest)
          else if c =? colon then scan_field (InSpec name (Some conv) 1 []) rest
          else fail (lit "expected ':' after conversion specifier")
      | InSpec name conv depth spec =>
          if c =? brace_l then
            scan_field (InSpec name conv (S depth) (spec ++ [c])) rest
          else if c =? brace_r then
            match depth with
            | 0%nat | 1%nat => field name conv spec (scan_text rest)
            | S d => scan_field (InSpec name conv d (spec ++ [c])) rest
            end
          else scan_field (InSpec name conv depth (spec ++ [c])) rest
      end
  end.
End Scanner.
Arguments scan_text {R} literal field fail done tpl.
Arguments scan_field {R} literal field fail done st tpl.

Section Format.
Variable rt : runtime.
Variable kw : kwargs.
Variable expand : str -> exn + str.

(** A field is rendered as soon as it is closed, so that the first error
    from the left is the one raised. *)
Definition emit (name : str) (conv : option N) (spec : str)
    (rest : exn + str) : exn + str :=
  match render_field rt kw expand name conv spec with
  | inl e => inl e
  | inr s => prepend s rest
  end.

Definition format_text : str -> exn + str :=
  scan_text (fun c out => prepend [c] out) emit
    (fun msg => inl (ValueError msg)) (inr []).

Definition format_field : field_state -> str -> exn + str :=
  scan_field (fun c out => prepend [c] out) emit
    (fun msg => inl (ValueError msg)) (inr []).
End Format.

(** A format specification inside a format specification is not
    expanded. *)
Definition too_deep (spec : str) : exn + str :=
  inl (ValueError (lit "Max string recursion exceeded")).

(** [tpl.format] applied to the keyword arguments [kw] *)
Definition format (rt : runtime) (tpl : str) (kw : kwargs) : exn + str :=
  format_text rt kw (format_text rt kw too_deep) tpl.





(** [posixpath.join(a, b)] *)
Definition os_path_join (a b : str) : str :=
  if starts_with N.eqb b (lit "/") then b
  else if match a with [] => true | _ => endswith a (lit "/") end then a ++ b
  else a ++ lit "/" ++ b.

End Py.

(* ================================================================== *)
(** ** The filesystem seen through [os.path] and [open] *)
(* ================================================================== *)

Module Posix.
Import Py.

Local Open Scope N_scope.
Local Open Scope bool_scope.
Local Open Scope list_scope.

(** A filesystem tree without symbolic links.  A regular file carries
    whether the server's user may read it; [Special] is a socket. *)
#[local] Unset Elimination Schemes.
Inductive node :=
| File (readable : bool) (content : bytes)
| Dir (entries : list (str * node))
| Special.
#[local] Set Elimination Schemes.

Fixpoint find_entry (name : str) (entries : list (str * node)) : option node :=
  match entries with
  | [] => None
  | (n, x) :: rest => if str_eqb n name then Some x else find_entry name rest
  end.

(** [s.split("/")]: the components of a path, empty ones included. *)
Fixpoint components (s : str) : list str :=
  match s with
  | [] => [[]]
  | c :: s' =>
      if c =? 47 then [] :: components s'
      else match components s' with
           | comp :: comps => (c :: comp) :: comps
           | [] => [[c]]
           end
  end.

(** The directories entered so far, innermost first, each with the name
    it was entered by; the last one is the root directory. *)
Definition trail := list (str * node).

(** One step of path resolution.  Every component, the empty one and
    [.] and [..] included, needs the node reached so far to be a
    directory; [..] at the root stays at the root. *)
Definition step (t : trail) (comp : str) : oserror + trail :=
  match t with
  | [] => inl ENOENT
  | (_, Dir entries) :: up =>
      if str_eqb comp [] || str_eqb comp (lit ".") then inr t
      else if str_eqb comp (lit "..") then
        inr (match up with [] => t | _ :: _ => up end)
      else match find_entry comp entries with
           | Some x => inr ((comp, x) :: t)
           | None => inl ENOENT
           end
  | _ :: _ => inl ENOTDIR
  end.

Fixpoint walk (t : trail) (comps : list str) : oserror + trail :=
  match comps with
  | [] => inr t
  | comp :: rest =>
      match step t comp with
      | inl e => inl e
      | inr t' => walk t' rest
      end
  end.

Record filesystem := {
  root : node;
  getcwd : str      (* what [os.getcwd()] returns *)
}.

(** The path as the kernel resolves it: a relative path starts at the
    working directory. *)
Definition absolute (fs : filesystem) (p : str) : str :=
  if starts_with N.eqb p (lit "/") then p else getcwd fs ++ lit "/" ++ p.

(** [stat]: the names on the way from the root to the object (the
    canonical path) and the object.  The empty path does not resolve, and
    a path with a NUL never reaches the kernel. *)
Definition resolve (fs : filesystem) (p : str) : oserror + (list str * node) :=
  if str_eqb p [] || mem p 0 then inl ENOENT
  else
    match walk [([], root fs)] (components (absolute fs p)) with
    | inl e => inl e
    | inr [] => inl ENOENT
    | inr ((name, x) :: up) =>
        inr (rev (map fst (removelast ((name, x) :: up))), x)
    end.

Definition os_path_exists (fs : filesystem) (p : str) : bool :=
  match resolve fs p with inr _ => true | inl _ => false end.

Definition os_path_isfile (fs : filesystem) (p : str) : bool :=
  match resolve fs p with inr (_, File _ _) => true | _ => false end.

(** [open(p, 'rb').read()] *)
Definition read_file (fs : filesystem) (p : str) : exn + bytes :=
  match resolve fs p with
  | inr (_, File true content) => inr content
  | inr (_, File false _) => inl (OSError EACCES p)
  | inr (_, Dir _) => inl (OSError EISDIR p)
  | inr (_, Special) => inl (OSError ENXIO p)
  | inl e => inl (OSError e p)
  end.

(** The canonical path of an object, when the path resolves. *)
Definition realpath (fs : filesystem) (p : str) : option (list str) :=
  match resolve fs p with inr (names, _) => Some names | inl _ => None end.

Fixpoint is_prefix (a b : list str) : bool :=
  match a, b with
  | [], _ => true
  | x :: a', y :: b' => str_eqb x y && is_prefix a' b'
  | _ :: _, [] => false
  end.

(** The object named by [p] lies in the directory named by [dir] or below. *)
Definition inside (fs : filesystem) (dir p : str) : bool :=
  match realpath fs dir, realpath fs p with
  | Some d, Some q => is_prefix d q
  | _, _ => false
  end.

End Posix.

(* ================================================================== *)
(** ** The handler object and its monad *)
(* ================================================================== *)

Import Py Posix.

Local Open Scope N_scope.
Local Open Scope bool_scope.
Local Open Scope list_scope.

(** What [BaseHTTPRequestHandler] has set on [self] before it calls
    [do_GET].  [path] and [command] are cut from the request line, which
    [http.server] decodes as ISO-8859-1; [date_time_string] is the value of
    [self.date_time_string()] while the request is handled. *)
Record request := {
  path : string;
  command : string;
  client_address : string * N;
  date_time_string : string
}.

(** The calls the handler makes on the transport, in order. *)
Inductive event :=
| SendResponse (code : N)
| SendHeader (keyword value : str)
| EndHeaders
| WfileWrite (data : bytes).

(** The calls the handler makes on the filesystem, in order. *)
Inductive fs_call :=
| Exists (p : str)
| Isfile (p : str)
| Open (p : str).

(** The mutable state of one request: what was written to the client,
    what was printed on [sys.stderr], the filesystem calls made, and the
    attribute [full_path] the rule classes put on the handler. *)
Record handler := {
  wfile : list event;
  stderr : list str;
  fs_calls : list fs_call;
  full_path : option str
}.

Definition fresh : handler :=
  {| wfile := []; stderr := []; fs_calls := []; full_path := None |}.

Definition M (A : Type) : Type := handler -> (exn + A) * handler.

Definition ret {A} (a : A) : M A := fun h => (inr a, h).

Definition bind {A B} (m : M A) (k : A -> M B) : M B :=
  fun h => match m h with
           | (inl e, h') => (inl e, h')
           | (inr a, h') => k a h'
           end.

Definition raise {A} (e : exn) : M A := fun h => (inl e, h).

(** [try: body  except <clause>: handler]; an exception the clause does
    not match goes on. *)
Definition try_except {A} (body : M A) (matches : exn -> bool)
    (handle : exn -> M A) : M A :=
  fun h => match body h with
           | (inl e, h') => if matches e then handle e h' else (inl e, h')
           | r => r
           end.

Definition lift {A} (r : exn + A) : M A :=
  match r with inl e => raise e | inr a => ret a end.

Declare Scope py_scope.
Delimit Scope py_scope with py.
Notation "x <- m ;; k" := (bind m (fun x => k))
  (at level 100, m at next level, right associativity) : py_scope.
Notation "m ;; k" := (bind m (fun _ => k))
  (at level 100, right associativity) : py_scope.
Local Open Scope py_scope.

Definition emit_event (ev : event) : M unit :=
  fun h => (inr tt, {| wfile := wfile h ++ [ev]; stderr := stderr h;
                       fs_calls := fs_calls h; full_path := full_path h |}).

Definition print_stderr (line : str) : M unit :=
  fun h => (inr tt, {| wfile := wfile h; stderr := stderr h ++ [line ++ [10]];
                       fs_calls := fs_calls h; full_path := full_path h |}).

Definition record_call (c : fs_call) : M unit :=
  fun h => (inr tt, {| wfile := wfile h; stderr := stderr h;
                       fs_calls := fs_calls h ++ [c]; full_path := full_path h |}).

Definition set_full_path (p : str) : M unit :=
  fun h => (inr tt, {| wfile := wfile h; stderr := stderr h;
                       fs_calls := fs_calls h; full_path := Some p |}).

(** Reading [handler.full_path]; the attribute may not be there yet. *)
Definition get_full_path : M str :=
  fun h => match full_path h with
           | Some p => (inr p, h)
           | None => (inl (AttributeError (lit "RequestHandler") (lit "full_path")), h)
           end.

Definition hasattr_full_path : M bool :=
  fun h => (inr (match full_path h with Some _ => true | None => false end), h).

Definition send_response (code : N) : M unit := emit_event (SendResponse code).
Definition send_header (k v : str) : M unit := emit_event (SendHeader k v).
Definition end_headers : M unit := emit_event EndHeaders.
Definition wfile_write (data : bytes) : M unit := emit_event (WfileWrite data).

(** The template [RequestHandler.Error_Page]. *)
Definition nl : str := [10].
Definition Error_Page : str :=
  lit "        <html>" ++ nl ++
  lit "        <body>" ++ nl ++
  lit "        <h1>{code} - Error accessing {path}</h1>" ++ nl ++
  lit "        <p>{msg}</p>" ++ nl ++
  lit "        <hr>" ++ nl ++
  lit "        <p>Server Time: {date_time}</p>" ++ nl ++
  lit "        </body>" ++ nl ++
  lit "        </html>" ++ nl ++
  lit "        ".

Section Server.
Variable rt : runtime.
Variable fs : filesystem.
Variable self : request.

Definition self_path : str := lit (path self).

Definition exists_ (p : str) : M bool :=
  record_call (Exists p) ;; ret (os_path_exists fs p).
Definition isfile_ (p : str) : M bool :=
  record_call (Isfile p) ;; ret (os_path_isfile fs p).
Definition open_read (p : str) : M bytes :=
  record_call (Open p) ;; lift (read_file fs p).

Definition encode (s : str) : M bytes :=
  match utf8_encode s with
  | Some b => ret b
  | None => raise (UnicodeEncodeError s)
  end.

Definition decode (b : bytes) : M str :=
  match utf8_decode b with
  | Some s => ret s
  | None => raise (UnicodeDecodeError b)
  end.

(** [RequestHandler.send_content] *)
Definition send_content (content : bytes) (status : N) : M unit :=
  send_response status ;;
  send_header (lit "Content-type") (lit "text/html") ;;
  send_header (lit "Content-Length") (dec_nat (List.length content)) ;;
  end_headers ;;
  wfile_write content.

(** [RequestHandler.handle_error] *)
Definition handle_error (code : N) (msg : str) : M unit :=
  content_str <- lift (format rt Error_Page
                         [(lit "code", PInt code);
                          (lit "path", PStr self_path);
                          (lit "msg", PStr msg);
                          (lit "date_time", PStr (lit (date_time_string self)))]) ;;
  content <- encode content_str ;;
  send_content content code.

(** The dictionary [values] of [handle_file]. *)
Definition values : kwargs :=
  [(lit "date_time", PStr (lit (date_time_string self)));
   (lit "client_host", PStr (lit (fst (client_address self))));
   (lit "client_port", PInt (snd (client_address self)));
   (lit "command", PStr (lit (command self)));
   (lit "path", PStr self_path)].

(** Lines 180 to 191 of [handle_file]: the page of an [.html] file. *)
Definition html_page (page : bytes) : M bytes :=
  page_str <- decode page ;;
  formatted <- lift (format rt page_str values) ;;
  encode formatted.

(** [RequestHandler.handle_file].  The five statements that send the
    response are indented under [else], and [send_error_page] is a
    function defined inside [handle_file] after the [try], so the
    attribute lookup [self.send_error_page] fails. *)
Definition handle_file (full_path : str) : M unit :=
  try_except
    (page <- open_read full_path ;;
     if endswith full_path (lit ".html") then
       page <- html_page page ;;
       let page_type := lit "text/html" in
       ret tt
     else if endswith full_path (lit ".txt") then
       let page_type := lit "text/plain" in
       ret tt
     else
       let page_type := lit "application/octet-stream" in
       send_response 200 ;;
       send_header (lit "Content-Type") page_type ;;
       send_header (lit "Content-Length") (dec_nat (List.length page)) ;;
       end_headers ;;
       wfile_write page)
    is_IOError
    (fun e => raise (AttributeError (lit "RequestHandler") (lit "send_error_page"))).

(** The test [self.path == "/" or self.path.strip() == ""]. *)
Definition root_requested : bool :=
  str_eqb self_path (lit "/") || str_eqb (strip self_path) [].

(** The path [do_GET] looks up (its steps 1 and 2 and the default to
    [index.html]). *)
Definition file_path : str :=
  let current_dir := getcwd fs in
  let req_path := lstrip (lit "/") self_path in
  let file_path := os_path_join current_dir req_path in
  if root_requested then os_path_join current_dir (lit "index.html")
  else file_path.

(** Steps 3 to 5 of [do_GET], for the path [p]. *)
Definition serve (p : str) : M unit :=
  found <- exists_ p ;;
  if negb found then
    handle_error 404 (lit "Requested file does not exist.")
  else
    regular <- isfile_ p ;;
    if negb regular then
      handle_error 404 (lit "Path is not a file (directory listing not supported).")
    else
      handle_file p.

(** The two [except] clauses of [do_GET]. *)
Definition on_exception (e : exn) : M unit :=
  if is_ServerException e then
    print_stderr (lit "Internal Server Error: " ++ str_of_exn rt e) ;;
    handle_error 500 (lit "Internal Server Error. Please try again later.")
  else
    print_stderr (lit "Unexpected Error: " ++ str_of_exn rt e) ;;
    handle_error 500 (lit "An unexpected error occurred: " ++ str_of_exn rt e).

(** [RequestHandler.do_GET] *)
Definition do_GET : M unit :=
  try_except (serve file_path) (fun _ => true) on_exception.

(** *** The rule classes *)

Record case := { test : M bool; act : M unit }.

Definition case_default_page : case := {|
  test :=
    if root_requested then
      let current_dir := getcwd fs in
      set_full_path (os_path_join current_dir (lit "index.html")) ;;
      p <- get_full_path ;;
      found <- exists_ p ;;
      if found then
        regular <- isfile_ p ;;
        if regular then ret true else ret false
      else ret false
    else ret false;
  act := p <- get_full_path ;; handle_file p
|}.

Definition case_no_file : case := {|
  test :=
    let current_dir := getcwd fs in
    let req_path := lstrip (lit "/") self_path in
    set_full_path (os_path_join current_dir req_path) ;;
    p <- get_full_path ;;
    found <- exists_ p ;;
    ret (negb found);
  act := handle_error 404 (lit "'" ++ self_path ++ lit "' not found")
|}.

Definition case_existing_file : case := {|
  test :=
    has <- hasattr_full_path ;;
    if negb has then ret false
    else p <- get_full_path ;; isfile_ p;
  act := p <- get_full_path ;; handle_file p
|}.

Definition case_always_fail : case := {|
  test := ret true;
  act := handle_error 404
           (lit "Unknown object '" ++ self_path
            ++ lit "' or directory listing disabled.")
|}.

(** [RequestHandler.Cases] *)
Definition Cases : list case :=
  [case_default_page; case_no_file; case_existing_file; case_always_fail].

(** The resolution the specification describes over [Cases]: the rules
    are tried in order and the first whose test succeeds acts.  Nothing
    in [server.py] runs this loop; it is here to be compared with
    [do_GET]. *)
Fixpoint spec_rule_chain (cases : list case) : M unit :=
  match cases with
  | [] => ret tt
  | c :: rest =>
      matched <- test c ;;
      if matched then act c else spec_rule_chain rest
  end.

End Server.

(* ================================================================== *)
(** ** What a run leaves behind *)
(* ================================================================== *)

(** The state [h] after more filesystem calls, more output to the client
    and more lines on [sys.stderr]. *)
Definition after (h : handler) (calls : list fs_call) (out : list event)
    (err : list str) : handler :=
  {| wfile := wfile h ++ out;
     stderr := stderr h ++ err;
     fs_calls := fs_calls h ++ calls;
     full_path := full_path h |}.

(** The five transport calls of [send_content]. *)
Definition response (status : N) (content : bytes) : list event :=
  [SendResponse status;
   SendHeader (lit "Content-type") (lit "text/html");
   SendHeader (lit "Content-Length") (dec_nat (List.length content));
   EndHeaders;
   WfileWrite content].

(** The five transport calls at the end of [handle_file]. *)
Definition file_response (page_type : str) (page : bytes) : list event :=
  [SendResponse 200;
   SendHeader (lit "Content-Type") page_type;
   SendHeader (lit "Content-Length") (dec_nat (List.length page));
   EndHeaders;
   WfileWrite page].

(** [Error_Page] with its four fields filled in. *)
Definition error_page_text (code : N) (p msg date_time : str) : str :=
  lit "        <html>" ++ nl ++
  lit "        <body>" ++ nl ++
  lit "        <h1>" ++ dec code ++ lit " - Error accessing " ++ p ++ lit "</h1>" ++ nl ++
  lit "        <p>" ++ msg ++ lit "</p>" ++ nl ++
  lit "        <hr>" ++ nl ++
  lit "        <p>Server Time: " ++ date_time ++ lit "</p>" ++ nl ++
  lit "        </body>" ++ nl ++
  lit "        </html>" ++ nl ++
  lit "        ".

(** Everything written to the client with [wfile.write]. *)
Definition written (h : handler) : bytes :=
  flat_map (fun ev => match ev with WfileWrite d => d | _ => [] end) (wfile h).

(** The status codes sent. *)
Definition statuses (h : handler) : list N :=
  flat_map (fun ev => match ev with SendResponse c => [c] | _ => [] end) (wfile h).

Definition encodable (s : str) : Prop := exists b, utf8_encode s = Some b.


Definition no_brace (s : str) : bool :=
  forallb (fun c => negb (mem [brace_l; brace_r] c)) s.

(** A segment [..] in the request path. *)
Definition has_dotdot (p : str) : bool :=
  existsb (str_eqb (lit "..")) (components p).

(** [str.format] raises neither an [IOError] nor a [ServerException]. *)
Definition format_error (e : exn) : bool :=
  match e with
  | LookupError _ | ValueError _ | FormatFieldError _ => true
  | _ => false
  end.

(** What [html_page] computes, as a value. *)
Definition rendered (rt : runtime) (self : request) (page : bytes) : exn + bytes :=
  match utf8_decode page with
  | None => inl (UnicodeDecodeError page)
  | Some page_str =>
      match format rt page_str (values self) with
      | inl e => inl e
      | inr text =>
          match utf8_encode text with
          | Some b => inr b
          | None => inl (UnicodeEncodeError text)
          end
      end
  end.

(** The message and the log line of the two [except] clauses of [do_GET]. *)
Definition exception_message (rt : runtime) (e : exn) : str :=
  if is_ServerException e
  then lit "Internal Server Error. Please try again later."
  else lit "An unexpected error occurred: " ++ str_of_exn rt e.

Definition exception_log (rt : runtime) (e : exn) : str :=
  (if is_ServerException e then lit "Internal Server Error: "
   else lit "Unexpected Error: ") ++ str_of_exn rt e ++ nl.

(** The object named by [p] exists and lies outside the directory [dir]. *)
Definition outside (fs : filesystem) (dir p : str) : bool :=
  match realpath fs dir, realpath fs p with
  | Some d, Some q => negb (is_prefix d q)
  | _, _ => false
  end.

(** The request path joined to the working directory, as steps 1 and 2 of
    [do_GET] and [case_no_file.test] compute it. *)
Definition joined_path (fs : filesystem) (self : request) : str :=
  os_path_join (getcwd fs) (lstrip (lit "/") (self_path self)).

Definition index_html (fs : filesystem) : str :=
  os_path_join (getcwd fs) (lit "index.html").

(** Surroundings to run the handler in: [disk] has the server root
    [/srv/www] with a few files and a directory, and a file outside the
    root; [bare] has an empty server root. *)
Module Example.

Definition quoted (s : str) : str := lit "'" ++ s ++ lit "'".

(** A runtime in which every field with a conversion, a format
    specification or an accessor raises. *)
Definition rt : runtime := {|
  str_of_exn := fun e =>
    match e with
    | OSError _ f => lit "[Errno] " ++ quoted f
    | UnicodeDecodeError _ => lit "'utf-8' codec can't decode"
    | UnicodeEncodeError _ => lit "'utf-8' codec can't encode"
    | LookupError k => quoted k
    | ValueError m => m
    | FormatFieldError f => lit "bad field " ++ quoted f
    | AttributeError o a =>
        quoted o ++ lit " object has no attribute " ++ quoted a
    | ServerException m => m
    end;
  maxsize := 9223372036854775807;
  accessors_ok := fun _ _ => false;
  format_rich_field := fun _ _ _ _ => None
|}.


Definition data (s : string) : bytes := list_byte_of_string s.

Definition www : node :=
  Dir [(lit "index.html", File true (data "<p>{path}</p>"));
       (lit "notes.txt", File true (data "hello"));
       (lit "data.bin", File true (data "abc"));
       (lit "bad.html", File true (data "<p>{user}</p>"));
       (lit "secret", File false (data "x"));
       (lit "subdir", Dir [])].

Definition disk : filesystem := {|
  root := Dir [(lit "srv", Dir [(lit "www", www)]);
               (lit "etc", Dir [(lit "passwd", File true (data "root:x:0:0"))])];
  getcwd := lit "/srv/www"
|}.

Definition bare : filesystem := {|
  root := Dir [(lit "srv", Dir [(lit "www", Dir [])])];
  getcwd := lit "/srv/www"
|}.


Definition GET (p : string) : request := {|
  path := p;
  command := "GET";
  client_address := ("127.0.0.1"%string, 50000);
  date_time_string := "Mon, 01 Jan 2024 00:00:00 GMT"
|}.

End Example.

(** Two descriptions of one state: lists appended in another grouping. *)
Ltac same_state :=
  unfold after; cbn [wfile stderr fs_calls full_path];
  rewrite ?app_nil_r, <- ?app_assoc; cbn [app]; reflexivity.

Ltac break_match :=
  match goal with
  | |- context [match ?x with _ => _ end] => destruct x eqn:?
  | |- context [if ?x then _ else _] => destruct x eqn:?
  end.

(** Comparisons as propositions, and arithmetic with division by a
    constant. *)
Ltac bool_to_prop :=
  repeat match goal with
  | H : _ && _ = true |- _ => apply andb_true_iff in H as [? ?]
  | H : negb _ = true |- _ => apply negb_true_iff in H
  | H : _ && _ = false |- _ => apply andb_false_iff in H
  | H : (_ <=? _) = true |- _ => apply N.leb_le in H
  | H : (_ <=? _) = false |- _ => apply N.leb_gt in H
  | H : (_ <? _) = true |- _ => apply N.ltb_lt in H
  | H : (_ <? _) = false |- _ => apply N.ltb_ge in H
  end.

Ltac div_lia := zify; Z.to_euclidean_division_equations; lia.

(* ================================================================== *)
(** ** Lemmas on the runtime model *)
(* ================================================================== *)

Lemma str_eqb_refl (s : str) : str_eqb s s = true.
Proof.
  induction s as [|c s IH]; simpl; [reflexivity|].
  now rewrite N.eqb_refl, IH.
Qed.

Lemma str_eqb_eq (a b : str) : str_eqb a b = true <-> a = b.
Proof.
  split.
  - revert b; induction a as [|x a IH]; intros [|y b]; simpl; try discriminate; auto.
    intros H. apply andb_true_iff in H as [Hxy Hab].
    apply N.eqb_eq in Hxy. apply IH in Hab. congruence.
  - intros ->. apply str_eqb_refl.
Qed.

Lemma drop_while_all (p : N -> bool) (s : str) :
  Forall (fun c => p c = true) s -> drop_while p s = [].
Proof.
  induction 1 as [|c s Hc _ IH]; simpl; [reflexivity|]. now rewrite Hc.
Qed.

Lemma drop_while_nil_all (p : N -> bool) (s : str) :
  drop_while p s = [] -> Forall (fun c => p c = true) s.
Proof.
  induction s as [|c s IH]; simpl; [constructor|].
  destruct (p c) eqn:Hc; [|discriminate].
  intros H. constructor; auto.
Qed.

Lemma drop_while_suffix (p : N -> bool) (s : str) :
  exists pre, s = pre ++ drop_while p s /\ Forall (fun c => p c = true) pre.
Proof.
  induction s as [|c s (pre & Hs & Hpre)]; simpl.
  - exists []. split; [reflexivity|constructor].
  - destruct (p c) eqn:Hc.
    + exists (c :: pre). split; [simpl; congruence|constructor; assumption].
    + exists []. split; [reflexivity|constructor].
Qed.

(** [s.strip() == ""] holds exactly for the strings made of whitespace. *)
Lemma strip_empty_iff (s : str) :
  strip s = [] <-> Forall (fun c => is_space c = true) s.
Proof.
  unfold strip, rstrip_ws. split.
  - intros H.
    assert (Hrev : drop_while is_space (rev (drop_while is_space s)) = []).
    { rewrite <- (rev_involutive (drop_while is_space (rev _))), H. reflexivity. }
    apply drop_while_nil_all in Hrev.
    destruct (drop_while_suffix is_space s) as (pre & Hs & Hpre).
    rewrite Hs. apply Forall_app. split; [assumption|].
    apply Forall_rev in Hrev. now rewrite rev_involutive in Hrev.
  - intros H. rewrite (drop_while_all _ _ H). reflexivity.
Qed.

Lemma encode_cp_byte (b : byte) : exists bs, encode_cp (Byte.to_N b) = Some bs.
Proof. destruct b; vm_compute; eauto. Qed.

Lemma utf8_encode_app (a b : str) (x y : bytes) :
  utf8_encode a = Some x -> utf8_encode b = Some y ->
  utf8_encode (a ++ b) = Some (x ++ y).
Proof.
  revert x; induction a as [|c a IH]; simpl; intros x Ha Hb.
  - now inversion Ha.
  - destruct (encode_cp c) as [bc|]; [|discriminate].
    destruct (utf8_encode a) as [ba|]; [|discriminate].
    inversion Ha; subst. rewrite (IH ba eq_refl Hb). now rewrite app_assoc.
Qed.

Lemma utf8_encode_app_inv (a b : str) (z : bytes) :
  utf8_encode (a ++ b) = Some z ->
  exists x y, utf8_encode a = Some x /\ utf8_encode b = Some y /\ z = x ++ y.
Proof.
  revert z; induction a as [|c a IH]; simpl; intros z H.
  - exists [], z. auto.
  - destruct (encode_cp c) as [bc|]; [|discriminate].
    destruct (utf8_encode (a ++ b)) as [r|] eqn:Hr; [|discriminate].
    destruct (IH r eq_refl) as (x & y & -> & Hy & ->).
    inversion H; subst. exists (bc ++ x), y. rewrite app_assoc. auto.
Qed.

Lemma encodable_lit (s : string) : encodable (lit s).
Proof.
  unfold lit, encodable.
  induction (list_byte_of_string s) as [|b l (bs & IH)]; cbn [map utf8_encode].
  - exists []. reflexivity.
  - destruct (encode_cp_byte b) as (x & ->). rewrite IH. eauto.
Qed.

Lemma encodable_app (a b : str) : encodable a -> encodable b -> encodable (a ++ b).
Proof.
  intros (x & Hx) (y & Hy). exists (x ++ y). now apply utf8_encode_app.
Qed.

Lemma encodable_nl : encodable nl.
Proof. exists [x0a]. reflexivity. Qed.

Lemma encodable_dec (n : N) : encodable (dec n).
Proof. apply encodable_lit. Qed.

Create HintDb encodable.
#[local] Hint Resolve encodable_lit encodable_app encodable_nl encodable_dec : encodable.

Lemma encodable_error_page (code : N) (p msg date_time : str) :
  encodable p -> encodable msg -> encodable date_time ->
  encodable (error_page_text code p msg date_time).
Proof. intros Hp Hm Hd. unfold error_page_text. auto 30 with encodable. Qed.

Lemma byte_eqb_refl (b : byte) : Byte.eqb b b = true.
Proof. destruct b; reflexivity. Qed.

Lemma starts_with_app (n rest : bytes) : starts_with Byte.eqb (n ++ rest) n = true.
Proof.
  induction n as [|b n IH]; simpl; [reflexivity|].
  now rewrite byte_eqb_refl, IH.
Qed.

Lemma contains_here (n rest : bytes) : bytes_contains (n ++ rest) n = true.
Proof.
  unfold bytes_contains. destruct (n ++ rest) eqn:E; simpl; rewrite <- E;
    now rewrite starts_with_app.
Qed.

Lemma contains_later (pre hay n : bytes) :
  bytes_contains hay n = true -> bytes_contains (pre ++ hay) n = true.
Proof.
  unfold bytes_contains. intros H. induction pre as [|b pre IH]; simpl; [assumption|].
  rewrite IH. apply orb_true_r.
Qed.

(** The error page holds the UTF-8 form of the path and of the message. *)
Lemma error_page_contains (code : N) (p msg date_time : str) (body : bytes) :
  utf8_encode (error_page_text code p msg date_time) = Some body ->
  exists bp bm,
    utf8_encode p = Some bp /\ utf8_encode msg = Some bm /\
    bytes_contains body bp = true /\ bytes_contains body bm = true.
Proof.
  unfold error_page_text. intros H.
  repeat match type of H with
  | utf8_encode (?a ++ ?b) = Some ?z =>
      let x := fresh "x" in let y := fresh "y" in
      let Hx := fresh "Hx" in let Hy := fresh "Hy" in
      destruct (utf8_encode_app_inv a b z H) as (x & y & Hx & Hy & ->);
      clear H; rename Hy into H
  end.
  match goal with
  | Hp : utf8_encode p = Some ?bp, Hm : utf8_encode msg = Some ?bm |- _ =>
      exists bp, bm; repeat split; try assumption
  end.
  - repeat first [apply contains_here | apply contains_later].
  - repeat first [apply contains_here | apply contains_later].
Qed.

(* ================================================================== *)
(** ** Lemmas on the handler *)
(* ================================================================== *)

Lemma after_after (h : handler) c1 o1 e1 c2 o2 e2 :
  after (after h c1 o1 e1) c2 o2 e2 = after h (c1 ++ c2) (o1 ++ o2) (e1 ++ e2).
Proof. unfold after; simpl. now rewrite !app_assoc. Qed.

Lemma after_nothing (h : handler) : after h [] [] [] = h.
Proof. destruct h; unfold after; simpl. now rewrite !app_nil_r. Qed.

Lemma format_Error_Page (rt : runtime) (code : N) (p msg date_time : str) :
  format rt Error_Page
    [(lit "code", PInt code); (lit "path", PStr p);
     (lit "msg", PStr msg); (lit "date_time", PStr date_time)]
  = inr (error_page_text code p msg date_time).
Proof. reflexivity. Qed.

Lemma prepend_inl (s : str) (r : exn + str) (e : exn) :
  prepend s r = inl e -> r = inl e.
Proof. destruct r; simpl; congruence. Qed.

Lemma field_value_error (max : N) (kw : kwargs) (first : str) (e : exn) :
  field_value max kw first = inl e -> format_error e = true.
Proof.
  unfold field_value. repeat break_match; intros H; inversion H; reflexivity.
Qed.

Lemma render_field_error rt kw expand name conv spec e :
  (forall s e', expand s = inl e' -> format_error e' = true) ->
  render_field rt kw expand name conv spec = inl e -> format_error e = true.
Proof.
  intros Hexp. unfold render_field.
  destruct (field_name_split name) as [first rest].
  destruct (field_value (maxsize rt) kw first) as [e0|v] eqn:Hv.
  { intros H; inversion H; subst. eapply field_value_error; eauto. }
  destruct (match rest with [] => false | _ :: _ => negb (accessors_ok rt v rest) end);
    [intros H; inversion H; reflexivity|].
  destruct (bad_conversion conv); [intros H; inversion H; reflexivity|].
  destruct (if mem spec brace_l then expand spec else inr spec) as [e1|spec'] eqn:Hs.
  { intros H; inversion H; subst. destruct (mem spec brace_l); [eauto|discriminate]. }
  repeat break_match; intros H; inversion H; reflexivity.
Qed.

Lemma emit_error rt kw expand name conv spec r e :
  (forall s e', expand s = inl e' -> format_error e' = true) ->
  (forall e', r = inl e' -> format_error e' = true) ->
  emit rt kw expand name conv spec r = inl e -> format_error e = true.
Proof.
  intros Hexp Hr. unfold emit.
  destruct (render_field rt kw expand name conv spec) eqn:Hf.
  - intros H; inversion H; subst. eapply render_field_error; eauto.
  - intros H. apply prepend_inl in H. auto.
Qed.

(** The equations of the scanner on a non-empty template. *)
Lemma scan_text_cons {R : Type} (literal : N -> R -> R)
    (field : str -> option N -> str -> R -> R) (fail : str -> R) (done : R)
    (c : N) (rest : str) :
  scan_text literal field fail done (c :: rest) =
  if c =? brace_l then
    match rest with
    | [] => fail (lit "Single '{' encountered in format string")
    | c' :: rest' =>
        if c' =? brace_l
        then literal brace_l (scan_text literal field fail done rest')
        else scan_field literal field fail done (InName []) rest
    end
  else if c =? brace_r then
    match rest with
    | c' :: rest' =>
        if c' =? brace_r
        then literal brace_r (scan_text literal field fail done rest')
        else fail (lit "Single '}' encountered in format string")
    | [] => fail (lit "Single '}' encountered in format string")
    end
  else literal c (scan_text literal field fail done rest).
Proof. destruct rest; reflexivity. Qed.

Lemma scan_field_cons {R : Type} (literal : N -> R -> R)
    (field : str -> option N -> str -> R -> R) (fail : str -> R) (done : R)
    (st : field_state) (c : N) (rest : str) :
  scan_field literal field fail done st (c :: rest) =
  match st with
  | InName name =>
      if c =? brace_l then fail (lit "unexpected '{' in field name")
      else if c =? bracket_l
      then scan_field literal field fail done (InIndex (name ++ [c])) rest
      else if c =? brace_r
      then field name None [] (scan_text literal field fail done rest)
      else if c =? colon
      then scan_field literal field fail done (InSpec name None 1 []) rest
      else if c =? bang then scan_field literal field fail done (InConv name) rest
      else scan_field literal field fail done (InName (name ++ [c])) rest
  | InIndex name =>
      if c =? bracket_r
      then scan_field literal field fail done (InName (name ++ [c])) rest
      else scan_field literal field fail done (InIndex (name ++ [c])) rest
  | InConv name => scan_field literal field fail done (AfterConv name c) rest
  | AfterConv name conv =>
      if c =? brace_r
      then field name (Some conv) [] (scan_text literal field fail done rest)
      else if c =? colon
      then scan_field literal field fail done (InSpec name (Some conv) 1 []) rest
      else fail (lit "expected ':' after conversion specifier")
  | InSpec name conv depth spec =>
      if c =? brace_l
      then scan_field literal field fail done
             (InSpec name conv (S depth) (spec ++ [c])) rest
      else if c =? brace_r then
        match depth with
        | 0%nat | 1%nat => field name conv spec (scan_text literal field fail done rest)
        | S d => scan_field literal field fail done
                   (InSpec name conv d (spec ++ [c])) rest
        end
      else scan_field literal field fail done
             (InSpec name conv depth (spec ++ [c])) rest
  end.
Proof. destruct st; reflexivity. Qed.

Lemma scan_field_nil {R : Type} (literal : N -> R -> R)
    (field : str -> option N -> str -> R -> R) (fail : str -> R) (done : R)
    (st : field_state) :
  exists msg, scan_field literal field fail done st [] = fail msg.
Proof. destruct st; eexists; reflexivity. Qed.

Lemma format_text_cons (rt : runtime) (kw : kwargs) (expand : str -> exn + str)
    (c : N) (rest : str) :
  format_text rt kw expand (c :: rest) =
  if c =? brace_l then
    match rest with
    | [] => inl (ValueError (lit "Single '{' encountered in format string"))
    | c' :: rest' =>
        if c' =? brace_l then prepend [brace_l] (format_text rt kw expand rest')
        else format_field rt kw expand (InName []) rest
    end
  else if c =? brace_r then
    match rest with
    | c' :: rest' =>
        if c' =? brace_r then prepend [brace_r] (format_text rt kw expand rest')
        else inl (ValueError (lit "Single '}' encountered in format string"))
    | [] => inl (ValueError (lit "Single '}' encountered in format string"))
    end
  else prepend [c] (format_text rt kw expand rest).
Proof.
  exact (scan_text_cons (fun c out => prepend [c] out) (emit rt kw expand)
           (fun msg => inl (ValueError msg)) (inr []) c rest).
Qed.

Lemma format_raises_upto (rt : runtime) (kw : kwargs) (expand : str -> exn + str)
    (n : nat) :
  (forall s e', expand s = inl e' -> format_error e' = true) ->
  forall tpl, (List.length tpl <= n)%nat ->
    (forall e, format_text rt kw expand tpl = inl e -> format_error e = true) /\
    (forall st e, format_field rt kw expand st tpl = inl e -> format_error e = true).
Proof.
  intros Hexp. induction n as [|n IH]; intros tpl Hlen.
  - destruct tpl; [|simpl in Hlen; lia].
    split; [discriminate|]. intros [] e H; inversion H; reflexivity.
  - destruct tpl as [|c rest].
    + split; [discriminate|]. intros [] e H; inversion H; reflexivity.
    + simpl in Hlen.
      destruct (IH rest ltac:(lia)) as [IHt IHf].
      assert (IHt' : forall c' rest', rest = c' :: rest' ->
                forall e, format_text rt kw expand rest' = inl e -> format_error e = true).
      { intros c' rest' -> . apply (IH rest'). simpl in Hlen. lia. }
      split.
      * intros e. rewrite format_text_cons.
        destruct (c =? brace_l).
        { destruct rest as [|c' rest']; [intros H; inversion H; reflexivity|].
          destruct (c' =? brace_l); [|apply (IHf (InName []))].
          intros H. apply prepend_inl in H. eapply IHt'; eauto. }
        destruct (c =? brace_r).
        { destruct rest as [|c' rest']; [intros H; inversion H; reflexivity|].
          destruct (c' =? brace_r); [|intros H; inversion H; reflexivity].
          intros H. apply prepend_inl in H. eapply IHt'; eauto. }
        intros H. apply prepend_inl in H. auto.
      * intros st e. unfold format_field. rewrite scan_field_cons. cbv beta.
        fold (format_field rt kw expand) (format_text rt kw expand).
        destruct st; repeat break_match; intros H;
          try (inversion H; reflexivity);
          eauto using emit_error.
Qed.

Lemma too_deep_error (s : str) (e : exn) : too_deep s = inl e -> format_error e = true.
Proof. intros H; inversion H; reflexivity. Qed.

Lemma format_raises (rt : runtime) (tpl : str) (kw : kwargs) (e : exn) :
  format rt tpl kw = inl e -> format_error e = true.
Proof.
  unfold format.
  apply (format_raises_upto rt kw (format_text rt kw too_deep) (List.length tpl)).
  - intros s e'.
    apply (format_raises_upto rt kw too_deep (List.length s) too_deep_error s (le_n _)).
  - apply le_n.
Qed.

Section Runs.
Variable rt : runtime.
Variable fs : filesystem.
Variable self : request.

Lemma send_content_run (content : bytes) (status : N) (h : handler) :
  send_content content status h = (inr tt, after h [] (response status content) []).
Proof.
  unfold send_content, send_response, send_header, end_headers, wfile_write,
    emit_event, bind, response; simpl.
  same_state.
Qed.

Lemma handle_error_run (code : N) (msg : str) (h : handler) :
  encodable msg ->
  exists body,
    utf8_encode (error_page_text code (self_path self) msg
                   (lit (date_time_string self))) = Some body /\
    handle_error rt self code msg h = (inr tt, after h [] (response code body) []).
Proof.
  intros Hmsg.
  destruct (encodable_error_page code (self_path self) msg
              (lit (date_time_string self)) (encodable_lit _) Hmsg (encodable_lit _))
    as (body & Hbody).
  exists body. split; [assumption|].
  unfold handle_error. rewrite format_Error_Page.
  unfold bind, lift, ret, encode. rewrite Hbody.
  apply send_content_run.
Qed.

(** The three ways through steps 3 to 5 of [do_GET]. *)
Lemma serve_missing (p : str) (h : handler) :
  os_path_exists fs p = false ->
  serve rt fs self p h =
  handle_error rt self 404 (lit "Requested file does not exist.")
    (after h [Exists p] [] []).
Proof.
  intros H. unfold serve, exists_, record_call, bind, ret; simpl.
  rewrite H; simpl. f_equal. same_state.
Qed.

Lemma serve_not_a_file (p : str) (h : handler) :
  os_path_exists fs p = true -> os_path_isfile fs p = false ->
  serve rt fs self p h =
  handle_error rt self 404
    (lit "Path is not a file (directory listing not supported).")
    (after h [Exists p; Isfile p] [] []).
Proof.
  intros H1 H2.
  unfold serve, exists_, isfile_, record_call, bind, ret; simpl.
  rewrite H1; simpl. rewrite H2; simpl. f_equal. same_state.
Qed.

Lemma isfile_exists (p : str) :
  os_path_isfile fs p = true -> os_path_exists fs p = true.
Proof.
  unfold os_path_isfile, os_path_exists. now destruct (resolve fs p).
Qed.

Lemma serve_file (p : str) (h : handler) :
  os_path_isfile fs p = true ->
  serve rt fs self p h =
  handle_file rt fs self p (after h [Exists p; Isfile p] [] []).
Proof.
  intros H2. pose proof (isfile_exists _ H2) as H1.
  unfold serve, exists_, isfile_, record_call, bind, ret; simpl.
  rewrite H1; simpl. rewrite H2; simpl. f_equal. same_state.
Qed.

Lemma html_page_run (page : bytes) (h : handler) :
  html_page rt self page h = (rendered rt self page, h).
Proof.
  unfold html_page, rendered, decode, bind, lift, encode, raise, ret.
  destruct (utf8_decode page); [|reflexivity].
  destruct (format rt s (values self)); [reflexivity|].
  destruct (utf8_encode s0); reflexivity.
Qed.

Lemma rendered_error (page : bytes) (e : exn) :
  rendered rt self page = inl e -> is_IOError e = false /\ is_ServerException e = false.
Proof.
  unfold rendered.
  destruct (utf8_decode page); [|intros H; inversion H; auto].
  destruct (format rt s (values self)) eqn:Hf.
  - intros H; inversion H; subst. apply format_raises in Hf.
    destruct e; try discriminate; auto.
  - destruct (utf8_encode s0); intros H; inversion H; auto.
Qed.

Lemma read_file_error (p : str) (e : exn) :
  read_file fs p = inl e -> is_IOError e = true.
Proof.
  unfold read_file. repeat break_match; intros H; inversion H; reflexivity.
Qed.

(** Every way through [handle_file]. *)
Lemma handle_file_run (p : str) (h : handler) :
  handle_file rt fs self p h =
  match read_file fs p with
  | inl _ =>
      (inl (AttributeError (lit "RequestHandler") (lit "send_error_page")),
       after h [Open p] [] [])
  | inr page =>
      if endswith p (lit ".html") then
        match rendered rt self page with
        | inl e => (inl e, after h [Open p] [] [])
        | inr _ => (inr tt, after h [Open p] [] [])
        end
      else if endswith p (lit ".txt") then (inr tt, after h [Open p] [] [])
      else (inr tt, after h [Open p]
                      (file_response (lit "application/octet-stream") page) [])
  end.
Proof.
  unfold handle_file, try_except, open_read, record_call, bind, lift, ret, raise.
  cbn [fst snd].
  destruct (read_file fs p) as [e|page] eqn:Hread.
  - rewrite (read_file_error _ _ Hread). f_equal. same_state.
  - destruct (endswith p (lit ".html")).
    + rewrite html_page_run.
      destruct (rendered rt self page) as [e|page'] eqn:Hr.
      * destruct (rendered_error _ _ Hr) as [-> _]. f_equal. same_state.
      * f_equal. same_state.
    + destruct (endswith p (lit ".txt")).
      * f_equal. same_state.
      * unfold send_response, send_header, end_headers, wfile_write, emit_event,
          file_response; simpl. f_equal. same_state.
Qed.

Lemma read_file_regular (p : str) (names : list str) (r : bool) (content : bytes) :
  resolve fs p = inr (names, File r content) ->
  os_path_isfile fs p = true /\
  read_file fs p = if r then inr content else inl (OSError EACCES p).
Proof.
  intros H. unfold os_path_isfile, read_file. rewrite H. now destruct r.
Qed.

Lemma on_exception_run (e : exn) (h : handler) :
  encodable (str_of_exn rt e) ->
  exists body,
    utf8_encode (error_page_text 500 (self_path self) (exception_message rt e)
      (lit (date_time_string self)))
      = Some body /\
    on_exception rt self e h =
      (inr tt, after h [] (response 500 body) [exception_log rt e]).
Proof.
  intros He. unfold on_exception, exception_message, exception_log, print_stderr, bind.
  destruct (is_ServerException e).
  - edestruct (handle_error_run 500 (lit "Internal Server Error. Please try again later."))
      as (body & Hb & Hrun); [apply encodable_lit|].
    exists body. split; [exact Hb|]. rewrite Hrun. f_equal.
    unfold after; cbn [wfile stderr fs_calls full_path].
    rewrite ?app_nil_r, <- ?app_assoc. reflexivity.
  - edestruct (handle_error_run 500 (lit "An unexpected error occurred: " ++ str_of_exn rt e))
      as (body & Hb & Hrun); [auto with encodable|].
    exists body. split; [exact Hb|]. rewrite Hrun. f_equal.
    unfold after; cbn [wfile stderr fs_calls full_path].
    rewrite ?app_nil_r, <- ?app_assoc. reflexivity.
Qed.

(** When steps 3 to 5 raise, nothing has been sent or printed. *)
Lemma serve_raises (p : str) (h h' : handler) (e : exn) :
  serve rt fs self p h = (inl e, h') ->
  exists calls, h' = after h calls [] [].
Proof.
  destruct (os_path_exists fs p) eqn:Hex.
  - destruct (os_path_isfile fs p) eqn:Hfile.
    + rewrite (serve_file _ _ Hfile), handle_file_run.
      repeat break_match; intros H; inversion H; subst;
        eexists; rewrite after_after; reflexivity.
    + rewrite (serve_not_a_file _ _ Hex Hfile).
      edestruct handle_error_run as (body & _ & ->); [apply encodable_lit|].
      discriminate.
  - rewrite (serve_missing _ _ Hex).
    edestruct handle_error_run as (body & _ & ->); [apply encodable_lit|].
    discriminate.
Qed.

Lemma do_GET_run (h : handler) :
  do_GET rt fs self h =
  match serve rt fs self (file_path fs self) h with
  | (inl e, h') => on_exception rt self e h'
  | r => r
  end.
Proof. reflexivity. Qed.

End Runs.

(* ================================================================== *)
(** ** Plain replacement fields *)
(* ================================================================== *)

Lemma prepend_prepend (a b : str) (r : exn + str) :
  prepend a (prepend b r) = prepend (a ++ b) r.
Proof. destruct r; simpl; [reflexivity|]. now rewrite app_assoc. Qed.

Lemma prepend_nil (r : exn + str) : prepend [] r = r.
Proof. now destruct r. Qed.

Lemma format_text_literal (rt : runtime) (kw : kwargs) (expand : str -> exn + str)
    (pre rest : str) :
  no_brace pre = true ->
  format_text rt kw expand (pre ++ rest) = prepend pre (format_text rt kw expand rest).
Proof.
  induction pre as [|c pre IH]; intros H.
  - now rewrite prepend_nil.
  - cbn [no_brace forallb] in H. apply andb_true_iff in H as [Hc Hpre].
    cbn [mem existsb] in Hc. rewrite !negb_orb in Hc.
    apply andb_true_iff in Hc as [Hl Hc]. apply andb_true_iff in Hc as [Hr _].
    apply negb_true_iff in Hl, Hr.
    cbn [app]. rewrite format_text_cons, Hl, Hr, (IH Hpre).
    apply prepend_prepend.
Qed.







(* ================================================================== *)
(** ** The response to a path that is missing or is not a file *)
(* ================================================================== *)

Lemma root_requested_false_path (fs : filesystem) (self : request) :
  root_requested self = false -> file_path fs self = joined_path fs self.
Proof. unfold file_path, joined_path. now intros ->. Qed.

Lemma root_requested_true_path (fs : filesystem) (self : request) :
  root_requested self = true -> file_path fs self = index_html fs.
Proof. unfold file_path, index_html. now intros ->. Qed.

Lemma do_GET_missing (rt : runtime) (fs : filesystem) (self : request) (h : handler) :
  os_path_exists fs (file_path fs self) = false ->
  exists body,
    utf8_encode (error_page_text 404 (self_path self)
                   (lit "Requested file does not exist.")
                   (lit (date_time_string self))) = Some body /\
    do_GET rt fs self h =
      (inr tt, after h [Exists (file_path fs self)] (response 404 body) []).
Proof.
  intros Hex. rewrite do_GET_run, (serve_missing _ _ _ _ _ Hex).
  destruct (handle_error_run rt self 404 (lit "Requested file does not exist.")
              (after h [Exists (file_path fs self)] [] []))
    as (body & Hbody & Hrun); [apply encodable_lit|].
  exists body. split; [exact Hbody|]. rewrite Hrun, after_after. reflexivity.
Qed.

Lemma do_GET_not_a_file (rt : runtime) (fs : filesystem) (self : request) (h : handler) :
  os_path_exists fs (file_path fs self) = true ->
  os_path_isfile fs (file_path fs self) = false ->
  exists body,
    utf8_encode (error_page_text 404 (self_path self)
                   (lit "Path is not a file (directory listing not supported).")
                   (lit (date_time_string self))) = Some body /\
    do_GET rt fs self h =
      (inr tt, after h [Exists (file_path fs self); Isfile (file_path fs self)]
                 (response 404 body) []).
Proof.
  intros Hex Hfile. rewrite do_GET_run, (serve_not_a_file _ _ _ _ _ Hex Hfile).
  destruct (handle_error_run rt self 404
              (lit "Path is not a file (directory listing not supported).")
              (after h [Exists (file_path fs self); Isfile (file_path fs self)] [] []))
    as (body & Hbody & Hrun); [apply encodable_lit|].
  exists body. split; [exact Hbody|]. rewrite Hrun, after_after. reflexivity.
Qed.

(** C5, as the code has it: for every request path other than the
    default-page case whose joined path does not exist, [do_GET] makes one
    [os.path.exists] call and sends one response with status 404; its body
    is the error page with the message "Requested file does not exist.",
    and it holds the requested path. *)
Theorem missing_path_is_404 (rt : runtime) (fs : filesystem) (self : request)
    (h : handler) :
  root_requested self = false ->
  os_path_exists fs (joined_path fs self) = false ->
  exists body bpath bmsg,
    do_GET rt fs self h =
      (inr tt, after h [Exists (joined_path fs self)] (response 404 body) []) /\
    utf8_encode (error_page_text 404 (self_path self)
                   (lit "Requested file does not exist.")
                   (lit (date_time_string self))) = Some body /\
    utf8_encode (self_path self) = Some bpath /\
    utf8_encode (lit "Requested file does not exist.") = Some bmsg /\
    bytes_contains body bpath = true /\
    bytes_contains body bmsg = true.
Proof.
  intros Hroot Hex. rewrite <- (root_requested_false_path fs self Hroot) in *.
  destruct (do_GET_missing rt fs self h Hex) as (body & Hbody & Hrun).
  destruct (error_page_contains _ _ _ _ _ Hbody) as (bp & bm & Hp & Hm & Cp & Cm).
  exists body, bp, bm. repeat split; assumption.
Qed.

Lemma missing_path_is_404_witness :
  root_requested (Example.GET "/missing.txt") = false /\
  os_path_exists Example.disk
    (joined_path Example.disk (Example.GET "/missing.txt")) = false /\
  exists body bpath bmsg,
    do_GET Example.rt Example.disk (Example.GET "/missing.txt") fresh =
      (inr tt, after fresh
                 [Exists (joined_path Example.disk (Example.GET "/missing.txt"))]
                 (response 404 body) []) /\
    utf8_encode (error_page_text 404 (self_path (Example.GET "/missing.txt"))
                   (lit "Requested file does not exist.")
                   (lit (date_time_string (Example.GET "/missing.txt")))) = Some body /\
    utf8_encode (self_path (Example.GET "/missing.txt")) = Some bpath /\
    utf8_encode (lit "Requested file does not exist.") = Some bmsg /\
    bytes_contains body bpath = true /\
    bytes_contains body bmsg = true.
Proof.
  split; [reflexivity|]. split; [reflexivity|].
  apply (missing_path_is_404 Example.rt Example.disk (Example.GET "/missing.txt") fresh);
    reflexivity.
Defined.

(** C5 as the specification words it fails: for [/missing.txt], which
    does not exist, the response is a 404 whose body does not hold
    ['/missing.txt' not found]. *)
Lemma missing_path_message_differs :
  root_requested (Example.GET "/missing.txt") = false /\
  os_path_exists Example.disk
    (joined_path Example.disk (Example.GET "/missing.txt")) = false /\
  statuses (snd (do_GET Example.rt Example.disk (Example.GET "/missing.txt") fresh))
    = [404] /\
  bytes_contains
    (written (snd (do_GET Example.rt Example.disk (Example.GET "/missing.txt") fresh)))
    (Example.data "'/missing.txt' not found") = false.
Proof. repeat split; vm_compute; reflexivity. Qed.

(** C6, as the code has it: for every request path that names an object
    that exists and is not a regular file, [do_GET] sends one response
    with status 404; its body is the error page with the message "Path is
    not a file (directory listing not supported).", and it holds the
    requested path. *)
Theorem not_a_file_is_404 (rt : runtime) (fs : filesystem) (self : request)
    (h : handler) :
  os_path_exists fs (file_path fs self) = true ->
  os_path_isfile fs (file_path fs self) = false ->
  exists body bpath bmsg,
    do_GET rt fs self h =
      (inr tt, after h [Exists (file_path fs self); Isfile (file_path fs self)]
                 (response 404 body) []) /\
    utf8_encode (error_page_text 404 (self_path self)
                   (lit "Path is not a file (directory listing not supported).")
                   (lit (date_time_string self))) = Some body /\
    utf8_encode (self_path self) = Some bpath /\
    utf8_encode (lit "Path is not a file (directory listing not supported).")
      = Some bmsg /\
    bytes_contains body bpath = true /\
    bytes_contains body bmsg = true.
Proof.
  intros Hex Hfile.
  destruct (do_GET_not_a_file rt fs self h Hex Hfile) as (body & Hbody & Hrun).
  destruct (error_page_contains _ _ _ _ _ Hbody) as (bp & bm & Hp & Hm & Cp & Cm).
  exists body, bp, bm. repeat split; assumption.
Qed.

Lemma not_a_file_is_404_witness :
  os_path_exists Example.disk (file_path Example.disk (Example.GET "/subdir")) = true /\
  os_path_isfile Example.disk (file_path Example.disk (Example.GET "/subdir")) = false /\
  exists body bpath bmsg,
    do_GET Example.rt Example.disk (Example.GET "/subdir") fresh =
      (inr tt, after fresh
                 [Exists (file_path Example.disk (Example.GET "/subdir"));
                  Isfile (file_path Example.disk (Example.GET "/subdir"))]
                 (response 404 body) []) /\
    utf8_encode (error_page_text 404 (self_path (Example.GET "/subdir"))
                   (lit "Path is not a file (directory listing not supported).")
                   (lit (date_time_string (Example.GET "/subdir")))) = Some body /\
    utf8_encode (self_path (Example.GET "/subdir")) = Some bpath /\
    utf8_encode (lit "Path is not a file (directory listing not supported).")
      = Some bmsg /\
    bytes_contains body bpath = true /\
    bytes_contains body bmsg = true.
Proof.
  split; [reflexivity|]. split; [reflexivity|].
  apply (not_a_file_is_404 Example.rt Example.disk (Example.GET "/subdir") fresh);
    reflexivity.
Defined.

(** C6 as the specification words it fails: [/subdir] is a directory, and
    the 404 sent for it does not hold [Unknown object '/subdir' or
    directory listing disabled.] *)
Lemma directory_message_differs :
  os_path_exists Example.disk (file_path Example.disk (Example.GET "/subdir")) = true /\
  os_path_isfile Example.disk (file_path Example.disk (Example.GET "/subdir")) = false /\
  statuses (snd (do_GET Example.rt Example.disk (Example.GET "/subdir") fresh))
    = [404] /\
  bytes_contains
    (written (snd (do_GET Example.rt Example.disk (Example.GET "/subdir") fresh)))
    (Example.data "Unknown object '/subdir' or directory listing disabled.") = false.
Proof. repeat split; vm_compute; reflexivity. Qed.

(* ================================================================== *)
(** ** The root page *)
(* ================================================================== *)

Lemma case_default_page_test_root (rt : runtime) (fs : filesystem) (self : request)
    (h : handler) :
  root_requested self = true ->
  fst (test (case_default_page rt fs self) h) = inr (os_path_isfile fs (index_html fs)) /\
  full_path (snd (test (case_default_page rt fs self) h)) = Some (index_html fs).
Proof.
  intros Hroot. unfold case_default_page, test. rewrite Hroot.
  unfold set_full_path, get_full_path, exists_, isfile_, record_call, bind, ret.
  cbn [full_path fst snd]. fold (index_html fs).
  destruct (os_path_exists fs (index_html fs)) eqn:Hex; cbn [fst snd full_path].
  - destruct (os_path_isfile fs (index_html fs)); split; reflexivity.
  - destruct (os_path_isfile fs (index_html fs)) eqn:Hfile; [|split; reflexivity].
    apply isfile_exists in Hfile. congruence.
Qed.

(** C10: a request path made only of whitespace passes the test
    [self.path.strip() == ""], so [do_GET] looks up [index.html] in the
    server root, the very path it looks up for ["/"]; the test of
    [case_default_page] takes it for the root page as well. *)
Theorem whitespace_path_is_root_page (rt : runtime) (fs : filesystem)
    (self : request) (h : handler) :
  Forall (fun c => is_space c = true) (self_path self) ->
  root_requested self = true /\
  file_path fs self = os_path_join (getcwd fs) (lit "index.html") /\
  (forall slash : request, path slash = "/"%string ->
     file_path fs self = file_path fs slash) /\
  fst (test (case_default_page rt fs self) h)
    = inr (os_path_isfile fs (os_path_join (getcwd fs) (lit "index.html"))) /\
  full_path (snd (test (case_default_page rt fs self) h))
    = Some (os_path_join (getcwd fs) (lit "index.html")).
Proof.
  intros Hws.
  assert (Hroot : root_requested self = true).
  { unfold root_requested. apply strip_empty_iff in Hws. rewrite Hws.
    apply orb_true_r. }
  split; [exact Hroot|]. split; [apply root_requested_true_path, Hroot|].
  split.
  - intros slash Hslash. rewrite (root_requested_true_path fs self Hroot).
    symmetry. apply root_requested_true_path.
    unfold root_requested, self_path. now rewrite Hslash.
  - apply case_default_page_test_root, Hroot.
Qed.

Lemma whitespace_path_is_root_page_witness :
  Forall (fun c => is_space c = true) (self_path (Example.GET "  ")) /\
  root_requested (Example.GET "  ") = true /\
  file_path Example.disk (Example.GET "  ") = lit "/srv/www/index.html".
Proof.
  split.
  - repeat constructor.
  - destruct (whitespace_path_is_root_page Example.rt Example.disk (Example.GET "  ") fresh)
      as (Hroot & Hpath & _).
    + repeat constructor.
    + split; [exact Hroot|]. rewrite Hpath. reflexivity.
Defined.

(* ================================================================== *)
(** ** Files that are read and not sent *)
(* ================================================================== *)

Lemma do_GET_regular (rt : runtime) (fs : filesystem) (self : request) (h : handler) :
  os_path_isfile fs (file_path fs self) = true ->
  do_GET rt fs self h =
  match handle_file rt fs self (file_path fs self)
          (after h [Exists (file_path fs self); Isfile (file_path fs self)] [] []) with
  | (inl e, h') => on_exception rt self e h'
  | r => r
  end.
Proof. intros Hfile. now rewrite do_GET_run, (serve_file _ _ _ _ _ Hfile). Qed.

(** C2 at [/notes.txt]: the file is there and is read, [do_GET] returns,
    and not one call has been made on the transport: no status line, no
    header, no body. *)
Theorem txt_file_is_not_sent :
  os_path_isfile Example.disk (file_path Example.disk (Example.GET "/notes.txt")) = true /\
  read_file Example.disk (file_path Example.disk (Example.GET "/notes.txt"))
    = inr (Example.data "hello") /\
  do_GET Example.rt Example.disk (Example.GET "/notes.txt") fresh =
    (inr tt, {| wfile := [];
                stderr := [];
                fs_calls := [Exists (lit "/srv/www/notes.txt");
                             Isfile (lit "/srv/www/notes.txt");
                             Open (lit "/srv/www/notes.txt")];
                full_path := None |}).
Proof. repeat split; vm_compute; reflexivity. Qed.

(** C3 fails wherever [handle_file] takes its [.html] or [.txt] branch:
    for a readable regular file whose name ends in [.txt], or ends in
    [.html] and whose page renders, [do_GET] returns with nothing written
    to the client. *)
Theorem html_and_txt_get_no_response (rt : runtime) (fs : filesystem)
    (self : request) (h : handler) (names : list str) (content : bytes) :
  resolve fs (file_path fs self) = inr (names, File true content) ->
  (endswith (file_path fs self) (lit ".html") = false /\
   endswith (file_path fs self) (lit ".txt") = true)
  \/ (endswith (file_path fs self) (lit ".html") = true /\
      exists page, rendered rt self content = inr page) ->
  do_GET rt fs self h =
    (inr tt, after h [Exists (file_path fs self); Isfile (file_path fs self);
                      Open (file_path fs self)] [] []) /\
  wfile (snd (do_GET rt fs self h)) = wfile h.
Proof.
  intros Hres Hkind.
  destruct (read_file_regular _ _ _ _ _ Hres) as [Hfile Hread].
  assert (Hrun : do_GET rt fs self h =
    (inr tt, after h [Exists (file_path fs self); Isfile (file_path fs self);
                      Open (file_path fs self)] [] [])).
  { rewrite (do_GET_regular _ _ _ _ Hfile), handle_file_run, Hread.
    destruct Hkind as [[Hhtml Htxt]|[Hhtml [page Hpage]]].
    - rewrite Hhtml, Htxt, after_after. reflexivity.
    - rewrite Hhtml, Hpage, after_after. reflexivity. }
  split; [exact Hrun|]. rewrite Hrun. cbn [snd after wfile]. apply app_nil_r.
Qed.

Lemma html_and_txt_get_no_response_witness :
  resolve Example.disk (file_path Example.disk (Example.GET "/"))
    = inr ([lit "srv"; lit "www"; lit "index.html"],
           File true (Example.data "<p>{path}</p>")) /\
  rendered Example.rt (Example.GET "/") (Example.data "<p>{path}</p>")
    = inr (Example.data "<p>/</p>") /\
  wfile (snd (do_GET Example.rt Example.disk (Example.GET "/") fresh)) = [].
Proof.
  split; [reflexivity|]. split; [reflexivity|].
  apply (html_and_txt_get_no_response Example.rt Example.disk (Example.GET "/") fresh
           [lit "srv"; lit "www"; lit "index.html"] (Example.data "<p>{path}</p>")).
  - reflexivity.
  - right. split; [reflexivity|]. exists (Example.data "<p>/</p>"). reflexivity.
Defined.

(* ================================================================== *)
(** ** Paths that leave the server root *)
(* ================================================================== *)

Lemma outside_exists (fs : filesystem) (dir p : str) :
  outside fs dir p = true -> os_path_exists fs p = true.
Proof.
  unfold outside, realpath, os_path_exists.
  destruct (resolve fs dir) as [|[]]; [discriminate|].
  now destruct (resolve fs p).
Qed.

Lemma do_GET_other_file (rt : runtime) (fs : filesystem) (self : request)
    (h : handler) (names : list str) (content : bytes) :
  resolve fs (file_path fs self) = inr (names, File true content) ->
  endswith (file_path fs self) (lit ".html") = false ->
  endswith (file_path fs self) (lit ".txt") = false ->
  do_GET rt fs self h =
    (inr tt, after h [Exists (file_path fs self); Isfile (file_path fs self);
                      Open (file_path fs self)]
               (file_response (lit "application/octet-stream") content) []).
Proof.
  intros Hres Hhtml Htxt.
  destruct (read_file_regular _ _ _ _ _ Hres) as [Hfile Hread].
  rewrite (do_GET_regular _ _ _ _ Hfile), handle_file_run, Hread, Hhtml, Htxt,
    after_after.
  reflexivity.
Qed.

(** C1, as the code has it: [do_GET] joins the request path to the
    working directory and looks the result up as it stands.  When the
    joined path names an object outside the server root, that object
    decides the response like any other: 404 when it is not a regular
    file, and status 200 with the bytes of the file when it is a readable
    regular file whose name ends in neither [.html] nor [.txt]. *)
Theorem traversal_is_not_neutralized (rt : runtime) (fs : filesystem)
    (self : request) (h : handler) :
  outside fs (getcwd fs) (file_path fs self) = true ->
  (os_path_isfile fs (file_path fs self) = false ->
   exists body,
     do_GET rt fs self h =
       (inr tt, after h [Exists (file_path fs self); Isfile (file_path fs self)]
                  (response 404 body) [])) /\
  (forall names content,
     resolve fs (file_path fs self) = inr (names, File true content) ->
     endswith (file_path fs self) (lit ".html") = false ->
     endswith (file_path fs self) (lit ".txt") = false ->
     do_GET rt fs self h =
       (inr tt, after h [Exists (file_path fs self); Isfile (file_path fs self);
                         Open (file_path fs self)]
                  (file_response (lit "application/octet-stream") content) [])).
Proof.
  intros Hout. apply outside_exists in Hout. split.
  - intros Hfile.
    destruct (do_GET_not_a_file rt fs self h Hout Hfile) as (body & _ & Hrun).
    exists body. exact Hrun.
  - intros names content. apply do_GET_other_file.
Qed.

Lemma traversal_is_not_neutralized_witness :
  outside Example.disk (getcwd Example.disk)
    (file_path Example.disk (Example.GET "/../../etc/passwd")) = true /\
  do_GET Example.rt Example.disk (Example.GET "/../../etc/passwd") fresh =
    (inr tt, after fresh
               [Exists (lit "/srv/www/../../etc/passwd");
                Isfile (lit "/srv/www/../../etc/passwd");
                Open (lit "/srv/www/../../etc/passwd")]
               (file_response (lit "application/octet-stream")
                  (Example.data "root:x:0:0")) []).
Proof.
  split; [reflexivity|].
  destruct (traversal_is_not_neutralized Example.rt Example.disk
              (Example.GET "/../../etc/passwd") fresh ltac:(reflexivity))
    as (_ & Hserved).
  apply (Hserved [lit "etc"; lit "passwd"] (Example.data "root:x:0:0"));
    reflexivity.
Defined.

(** C1 as the specification words it fails: the path [/../../etc/passwd]
    has [..] segments and resolves outside [/srv/www], and the response is
    status 200 with the content of [/etc/passwd]. *)
Lemma traversal_serves_file_outside_root :
  has_dotdot (self_path (Example.GET "/../../etc/passwd")) = true /\
  realpath Example.disk (getcwd Example.disk) = Some [lit "srv"; lit "www"] /\
  realpath Example.disk (file_path Example.disk (Example.GET "/../../etc/passwd"))
    = Some [lit "etc"; lit "passwd"] /\
  statuses (snd (do_GET Example.rt Example.disk (Example.GET "/../../etc/passwd") fresh))
    = [200] /\
  written (snd (do_GET Example.rt Example.disk (Example.GET "/../../etc/passwd") fresh))
    = Example.data "root:x:0:0".
Proof. repeat split; vm_compute; reflexivity. Qed.

(* ================================================================== *)
(** ** The default page *)
(* ================================================================== *)

(** C4, as the code has it: when the request path is ["/"] or strips to
    the empty string, [do_GET] looks up [index.html] in the server root in
    place of the request path.  If [index.html] does not exist, the
    response is the 404 page "Requested file does not exist." and the
    request path is not looked up; if it is a regular file, it is handed
    to [handle_file]. *)
Theorem default_page_lookup (rt : runtime) (fs : filesystem) (self : request)
    (h : handler) :
  root_requested self = true ->
  file_path fs self = index_html fs /\
  (os_path_exists fs (index_html fs) = false ->
   exists body,
     utf8_encode (error_page_text 404 (self_path self)
                    (lit "Requested file does not exist.")
                    (lit (date_time_string self))) = Some body /\
     do_GET rt fs self h =
       (inr tt, after h [Exists (index_html fs)] (response 404 body) [])) /\
  (os_path_isfile fs (index_html fs) = true ->
   do_GET rt fs self h =
     try_except (handle_file rt fs self (index_html fs)) (fun _ => true)
       (on_exception rt self)
       (after h [Exists (index_html fs); Isfile (index_html fs)] [] [])).
Proof.
  intros Hroot. pose proof (root_requested_true_path fs self Hroot) as Hpath.
  split; [exact Hpath|]. rewrite <- Hpath. split.
  - apply do_GET_missing.
  - intros Hfile. rewrite (do_GET_regular _ _ _ _ Hfile). reflexivity.
Qed.

Lemma default_page_lookup_witness :
  root_requested (Example.GET "/") = true /\
  file_path Example.bare (Example.GET "/") = lit "/srv/www/index.html" /\
  os_path_exists Example.bare (index_html Example.bare) = false /\
  statuses (snd (do_GET Example.rt Example.bare (Example.GET "/") fresh)) = [404].
Proof.
  split; [reflexivity|].
  destruct (default_page_lookup Example.rt Example.bare (Example.GET "/") fresh
              ltac:(reflexivity)) as (Hpath & Hmissing & _).
  split; [rewrite Hpath; reflexivity|]. split; [reflexivity|].
  destruct (Hmissing ltac:(reflexivity)) as (body & _ & Hrun).
  rewrite Hrun. reflexivity.
Defined.

(** C4 as the specification words it fails: with no [index.html] in the
    root, the response to ["/"] is the page for a missing file, while
    going on with the request path itself, which joins to the root
    directory, gives the page for a path that is not a file. *)
Lemma default_page_absent_does_not_fall_through :
  root_requested (Example.GET "/") = true /\
  os_path_exists Example.bare (index_html Example.bare) = false /\
  fs_calls (snd (do_GET Example.rt Example.bare (Example.GET "/") fresh))
    = [Exists (lit "/srv/www/index.html")] /\
  bytes_contains
    (written (snd (do_GET Example.rt Example.bare (Example.GET "/") fresh)))
    (Example.data "Requested file does not exist.") = true /\
  joined_path Example.bare (Example.GET "/") = lit "/srv/www/" /\
  bytes_contains
    (written (snd (serve Example.rt Example.bare (Example.GET "/")
                     (joined_path Example.bare (Example.GET "/")) fresh)))
    (Example.data "Requested file does not exist.") = false /\
  written (snd (do_GET Example.rt Example.bare (Example.GET "/") fresh))
    <> written (snd (serve Example.rt Example.bare (Example.GET "/")
                       (joined_path Example.bare (Example.GET "/")) fresh)).
Proof.
  repeat split; try (vm_compute; reflexivity).
  intros H.
  assert (Hc : bytes_contains
            (written (snd (do_GET Example.rt Example.bare (Example.GET "/") fresh)))
            (Example.data "Requested file does not exist.") = true)
    by (vm_compute; reflexivity).
  rewrite H in Hc. vm_compute in Hc. discriminate.
Qed.

(* ================================================================== *)
(** ** The order of the checks *)
(* ================================================================== *)

Lemma handle_error_state (rt : runtime) (self : request) (code : N) (msg : str)
    (h : handler) :
  exists out, snd (handle_error rt self code msg h) = after h [] out [].
Proof.
  unfold handle_error. rewrite format_Error_Page. unfold bind, lift, ret, encode.
  destruct (utf8_encode _) as [content|]; unfold ret, raise; cbv beta iota.
  - rewrite send_content_run. eexists. reflexivity.
  - exists []. cbn [snd]. now rewrite after_nothing.
Qed.

Lemma on_exception_state (rt : runtime) (self : request) (e : exn) (h : handler) :
  exists out err, snd (on_exception rt self e h) = after h [] out err.
Proof.
  unfold on_exception, print_stderr, bind.
  destruct (is_ServerException e).
  - match goal with |- context [handle_error rt self ?c ?m ?h0] =>
      destruct (handle_error_state rt self c m h0) as (out & Hout) end.
    exists out, [(lit "Internal Server Error: " ++ str_of_exn rt e) ++ [10]].
    cbv beta iota. rewrite Hout. same_state.
  - match goal with |- context [handle_error rt self ?c ?m ?h0] =>
      destruct (handle_error_state rt self c m h0) as (out & Hout) end.
    exists out, [(lit "Unexpected Error: " ++ str_of_exn rt e) ++ [10]].
    cbv beta iota. rewrite Hout. same_state.
Qed.

(** C8, as the code has it: [do_GET] runs its own three checks in order
    and stops at the first that decides.  A missing path costs one
    [os.path.exists] call and gives the 404 page for a missing file; an
    object that is not a regular file costs one [exists] and one [isfile]
    call and gives the 404 page for it; a regular file is opened once,
    after the two checks.  No other filesystem call is made, and the
    attribute [full_path], which only the rule classes of [Cases] set, is
    left as it was. *)
Theorem do_GET_checks_in_order (rt : runtime) (fs : filesystem) (self : request)
    (h : handler) :
  (os_path_exists fs (file_path fs self) = false ->
   exists body,
     utf8_encode (error_page_text 404 (self_path self)
                    (lit "Requested file does not exist.")
                    (lit (date_time_string self))) = Some body /\
     do_GET rt fs self h =
       (inr tt, after h [Exists (file_path fs self)] (response 404 body) [])) /\
  (os_path_exists fs (file_path fs self) = true ->
   os_path_isfile fs (file_path fs self) = false ->
   exists body,
     utf8_encode (error_page_text 404 (self_path self)
                    (lit "Path is not a file (directory listing not supported).")
                    (lit (date_time_string self))) = Some body /\
     do_GET rt fs self h =
       (inr tt, after h [Exists (file_path fs self); Isfile (file_path fs self)]
                  (response 404 body) [])) /\
  (os_path_isfile fs (file_path fs self) = true ->
   exists out err,
     snd (do_GET rt fs self h) =
       after h [Exists (file_path fs self); Isfile (file_path fs self);
                Open (file_path fs self)] out err).
Proof.
  split; [apply do_GET_missing|]. split; [apply do_GET_not_a_file|].
  intros Hfile. rewrite (do_GET_regular _ _ _ _ Hfile), handle_file_run.
  assert (Hexn : forall e,
            exists out err,
              snd (on_exception rt self e
                     (after (after h [Exists (file_path fs self);
                                      Isfile (file_path fs self)] [] [])
                        [Open (file_path fs self)] [] [])) =
              after h [Exists (file_path fs self); Isfile (file_path fs self);
                       Open (file_path fs self)] out err).
  { intros e.
    destruct (on_exception_state rt self e
                (after (after h [Exists (file_path fs self);
                                 Isfile (file_path fs self)] [] [])
                   [Open (file_path fs self)] [] [])) as (out & err & ->).
    exists out, err. now rewrite !after_after. }
  destruct (read_file fs (file_path fs self)) as [e0|page]; [apply Hexn|].
  destruct (endswith (file_path fs self) (lit ".html")).
  - destruct (rendered rt self page) as [e|page']; [apply Hexn|].
    exists [], []. cbn [snd]. now rewrite after_after.
  - destruct (endswith (file_path fs self) (lit ".txt")).
    + exists [], []. cbn [snd]. now rewrite after_after.
    + eexists _, []. cbn [snd]. now rewrite after_after.
Qed.

Lemma do_GET_checks_in_order_witness :
  os_path_exists Example.disk (file_path Example.disk (Example.GET "/nothing")) = false /\
  fs_calls (snd (do_GET Example.rt Example.disk (Example.GET "/nothing") fresh))
    = [Exists (lit "/srv/www/nothing")] /\
  full_path (snd (do_GET Example.rt Example.disk (Example.GET "/nothing") fresh)) = None.
Proof.
  split; [reflexivity|].
  destruct (do_GET_checks_in_order Example.rt Example.disk (Example.GET "/nothing") fresh)
    as (Hmissing & _ & _).
  destruct (Hmissing ltac:(reflexivity)) as (body & _ & Hrun).
  rewrite Hrun. split; reflexivity.
Defined.

(** C8 as the specification words it fails: for ["/"] in a root without
    [index.html] the rule chain over [Cases] ends in [case_always_fail]
    and its "Unknown object" page, after setting [full_path] twice, while
    [do_GET] sends the page for a missing file and never sets
    [full_path]. *)
Lemma do_GET_is_not_the_rule_chain :
  bytes_contains
    (written (snd (spec_rule_chain
                     (Cases Example.rt Example.bare (Example.GET "/")) fresh)))
    (Example.data "Unknown object '/' or directory listing disabled.") = true /\
  bytes_contains
    (written (snd (do_GET Example.rt Example.bare (Example.GET "/") fresh)))
    (Example.data "Unknown object '/' or directory listing disabled.") = false /\
  full_path (snd (spec_rule_chain
                    (Cases Example.rt Example.bare (Example.GET "/")) fresh))
    = Some (lit "/srv/www/") /\
  full_path (snd (do_GET Example.rt Example.bare (Example.GET "/") fresh)) = None /\
  do_GET Example.rt Example.bare (Example.GET "/") fresh
    <> spec_rule_chain (Cases Example.rt Example.bare (Example.GET "/")) fresh.
Proof.
  repeat split; try (vm_compute; reflexivity).
  intros H. apply (f_equal (fun r => full_path (snd r))) in H.
  vm_compute in H. discriminate.
Qed.

(* ================================================================== *)
(** ** Exceptions at the boundary of [do_GET] *)
(* ================================================================== *)

Lemma do_GET_exception (rt : runtime) (fs : filesystem) (self : request)
    (h h' : handler) (e : exn) :
  encodable (str_of_exn rt e) ->
  serve rt fs self (file_path fs self) h = (inl e, h') ->
  exists calls body,
    h' = after h calls [] [] /\
    utf8_encode (error_page_text 500 (self_path self) (exception_message rt e)
                   (lit (date_time_string self))) = Some body /\
    do_GET rt fs self h =
      (inr tt, after h calls (response 500 body) [exception_log rt e]).
Proof.
  intros Henc Hserve.
  destruct (serve_raises _ _ _ _ _ _ _ Hserve) as (calls & ->).
  destruct (on_exception_run rt self e (after h calls [] []) Henc)
    as (body & Hbody & Hrun).
  exists calls, body. split; [reflexivity|]. split; [exact Hbody|].
  rewrite do_GET_run, Hserve, Hrun, after_after, app_nil_r. reflexivity.
Qed.

(** C9: whatever exception steps 3 to 5 of [do_GET] raise, nothing has
    been sent or printed when it reaches the [except] clauses; one clause
    takes it, prints one line on [sys.stderr] and sends one response with
    status 500, and [do_GET] returns.  The text [str(e)] is taken to be
    one the UTF-8 codec accepts, as the interpreter's texts are. *)
Theorem exception_becomes_one_500 (rt : runtime) (fs : filesystem) (self : request)
    (h h' : handler) (e : exn) :
  encodable (str_of_exn rt e) ->
  serve rt fs self (file_path fs self) h = (inl e, h') ->
  exists calls body,
    h' = after h calls [] [] /\
    wfile h' = wfile h /\
    stderr h' = stderr h /\
    utf8_encode (error_page_text 500 (self_path self) (exception_message rt e)
                   (lit (date_time_string self))) = Some body /\
    do_GET rt fs self h =
      (inr tt, after h calls (response 500 body) [exception_log rt e]).
Proof.
  intros Henc Hserve.
  destruct (do_GET_exception rt fs self h h' e Henc Hserve)
    as (calls & body & -> & Hbody & Hrun).
  exists calls, body. cbn [after wfile stderr]. rewrite !app_nil_r.
  repeat split; assumption.
Qed.

Lemma exception_becomes_one_500_witness :
  serve Example.rt Example.disk (Example.GET "/secret")
    (file_path Example.disk (Example.GET "/secret")) fresh
  = (inl (AttributeError (lit "RequestHandler") (lit "send_error_page")),
     after fresh [Exists (lit "/srv/www/secret"); Isfile (lit "/srv/www/secret");
                  Open (lit "/srv/www/secret")] [] []) /\
  statuses (snd (do_GET Example.rt Example.disk (Example.GET "/secret") fresh)) = [500] /\
  stderr (snd (do_GET Example.rt Example.disk (Example.GET "/secret") fresh))
  = [lit "Unexpected Error: 'RequestHandler' object has no attribute 'send_error_page'"
     ++ nl].
Proof.
  split; [reflexivity|].
  destruct (exception_becomes_one_500 Example.rt Example.disk (Example.GET "/secret")
              fresh
              (after fresh [Exists (lit "/srv/www/secret"); Isfile (lit "/srv/www/secret");
                            Open (lit "/srv/www/secret")] [] [])
              (AttributeError (lit "RequestHandler") (lit "send_error_page")))
    as (calls & body & _ & _ & _ & _ & Hrun).
  - eexists. vm_compute. reflexivity.
  - reflexivity.
  - rewrite Hrun. split; reflexivity.
Defined.

(* ================================================================== *)
(** ** The UTF-8 codec: decoding and encoding are inverse *)
(* ================================================================== *)

Lemma byte_of_to_N (b : byte) : byte_of (Byte.to_N b) = b.
Proof. unfold byte_of. now rewrite Byte.of_to_N. Qed.

Lemma utf8_decode_cons (b0 : byte) (r0 : bytes) :
  utf8_decode (b0 :: r0) =
  let n0 := Byte.to_N b0 in
  if n0 <? 128 then option_map (cons n0) (utf8_decode r0)
  else if (192 <=? n0) && (n0 <=? 223) then
    match r0 with
    | b1 :: r1 =>
        let n1 := Byte.to_N b1 in
        let c := (n0 - 192) * 64 + cont n1 in
        if is_cont n1 && (128 <=? c)
        then option_map (cons c) (utf8_decode r1) else None
    | _ => None
    end
  else if (224 <=? n0) && (n0 <=? 239) then
    match r0 with
    | b1 :: b2 :: r2 =>
        let n1 := Byte.to_N b1 in
        let n2 := Byte.to_N b2 in
        let c := (n0 - 224) * 4096 + cont n1 * 64 + cont n2 in
        if is_cont n1 && is_cont n2 && (2048 <=? c)
           && negb ((55296 <=? c) && (c <=? 57343))
        then option_map (cons c) (utf8_decode r2) else None
    | _ => None
    end
  else if (240 <=? n0) && (n0 <=? 247) then
    match r0 with
    | b1 :: b2 :: b3 :: r3 =>
        let n1 := Byte.to_N b1 in
        let n2 := Byte.to_N b2 in
        let n3 := Byte.to_N b3 in
        let c := (n0 - 240) * 262144 + cont n1 * 4096
                 + cont n2 * 64 + cont n3 in
        if is_cont n1 && is_cont n2 && is_cont n3
           && (65536 <=? c) && (c <? 1114112)
        then option_map (cons c) (utf8_decode r3) else None
    | _ => None
    end
  else None.
Proof. reflexivity. Qed.

Lemma encode_cp_1 (n0 : N) : n0 < 128 -> encode_cp n0 = Some [byte_of n0].
Proof. intros H. unfold encode_cp. apply N.ltb_lt in H. now rewrite H. Qed.

Lemma encode_cp_2 (n0 n1 : N) :
  192 <= n0 -> n0 <= 223 -> is_cont n1 = true ->
  128 <= (n0 - 192) * 64 + cont n1 ->
  encode_cp ((n0 - 192) * 64 + cont n1) = Some [byte_of n0; byte_of n1].
Proof.
  unfold is_cont, cont. intros H0 H1 Hc Hmin. bool_to_prop.
  unfold encode_cp.
  replace (_ <? 128) with false by (symmetry; apply N.ltb_ge; lia).
  replace (_ <? 2048) with true by (symmetry; apply N.ltb_lt; lia).
  repeat f_equal; div_lia.
Qed.

Lemma encode_cp_3 (n0 n1 n2 : N) :
  224 <= n0 -> n0 <= 239 -> is_cont n1 = true -> is_cont n2 = true ->
  2048 <= (n0 - 224) * 4096 + cont n1 * 64 + cont n2 ->
  (55296 <=? (n0 - 224) * 4096 + cont n1 * 64 + cont n2)
  && ((n0 - 224) * 4096 + cont n1 * 64 + cont n2 <=? 57343) = false ->
  encode_cp ((n0 - 224) * 4096 + cont n1 * 64 + cont n2)
  = Some [byte_of n0; byte_of n1; byte_of n2].
Proof.
  unfold is_cont, cont. intros H0 H1 Hc1 Hc2 Hmin Hsur.
  apply andb_true_iff in Hc1 as [Ha1 Hb1]. apply andb_true_iff in Hc2 as [Ha2 Hb2].
  apply N.leb_le in Ha1, Hb1, Ha2, Hb2.
  unfold encode_cp. rewrite Hsur.
  replace (_ <? 128) with false by (symmetry; apply N.ltb_ge; lia).
  replace (_ <? 2048) with false by (symmetry; apply N.ltb_ge; lia).
  replace (_ <? 65536) with true by (symmetry; apply N.ltb_lt; lia).
  repeat f_equal; div_lia.
Qed.

Lemma encode_cp_4 (n0 n1 n2 n3 : N) :
  240 <= n0 -> n0 <= 247 ->
  is_cont n1 = true -> is_cont n2 = true -> is_cont n3 = true ->
  65536 <= (n0 - 240) * 262144 + cont n1 * 4096 + cont n2 * 64 + cont n3 ->
  (n0 - 240) * 262144 + cont n1 * 4096 + cont n2 * 64 + cont n3 < 1114112 ->
  encode_cp ((n0 - 240) * 262144 + cont n1 * 4096 + cont n2 * 64 + cont n3)
  = Some [byte_of n0; byte_of n1; byte_of n2; byte_of n3].
Proof.
  unfold is_cont, cont. intros H0 H1 Hc1 Hc2 Hc3 Hmin Hmax.
  apply andb_true_iff in Hc1 as [Ha1 Hb1]. apply andb_true_iff in Hc2 as [Ha2 Hb2].
  apply andb_true_iff in Hc3 as [Ha3 Hb3].
  apply N.leb_le in Ha1, Hb1, Ha2, Hb2, Ha3, Hb3.
  unfold encode_cp.
  replace (_ <? 128) with false by (symmetry; apply N.ltb_ge; lia).
  replace (_ <? 2048) with false by (symmetry; apply N.ltb_ge; lia).
  replace (_ <? 65536) with false by (symmetry; apply N.ltb_ge; lia).
  replace (_ <? 1114112) with true by (symmetry; apply N.ltb_lt; lia).
  repeat f_equal; div_lia.
Qed.

Lemma option_map_cons_some (c : N) (o : option str) (s : str) :
  option_map (cons c) o = Some s -> exists s', o = Some s' /\ s = c :: s'.
Proof. destruct o; simpl; intros H; inversion H; eauto. Qed.

(** Encoding what the strict decoder returned gives the octets back. *)
Lemma utf8_decode_encode_upto (n : nat) :
  forall (b : bytes) (s : str),
    (List.length b <= n)%nat -> utf8_decode b = Some s -> utf8_encode s = Some b.
Proof.
  induction n as [|n IH]; intros b s Hlen.
  - destruct b; [|simpl in Hlen; lia]. intros H; inversion H; reflexivity.
  - destruct b as [|b0 r0]; [intros H; inversion H; reflexivity|].
    rewrite utf8_decode_cons. cbv zeta.
    destruct (Byte.to_N b0 <? 128) eqn:H1.
    { intros H. apply option_map_cons_some in H as (s' & Hs' & ->).
      apply IH in Hs'; [|simpl in Hlen; lia].
      cbn [utf8_encode]. apply N.ltb_lt in H1.
      now rewrite (encode_cp_1 _ H1), Hs', byte_of_to_N. }
    destruct ((192 <=? Byte.to_N b0) && (Byte.to_N b0 <=? 223)) eqn:H2.
    { destruct r0 as [|b1 r1]; [discriminate|].
      destruct (is_cont (Byte.to_N b1) && (128 <=? _)) eqn:Hc; [|discriminate].
      intros H. apply option_map_cons_some in H as (s' & Hs' & ->).
      apply IH in Hs'; [|simpl in Hlen; lia].
      apply andb_true_iff in H2 as [Ha Hb]. apply andb_true_iff in Hc as [Hc Hm].
      apply N.leb_le in Ha, Hb, Hm.
      cbn [utf8_encode].
      now rewrite (encode_cp_2 _ _ Ha Hb Hc Hm), Hs', !byte_of_to_N. }
    destruct ((224 <=? Byte.to_N b0) && (Byte.to_N b0 <=? 239)) eqn:H3.
    { destruct r0 as [|b1 [|b2 r2]]; try discriminate.
      match goal with |- (if ?c then _ else _) = _ -> _ => destruct c eqn:Hc end;
        [|discriminate].
      intros H. apply option_map_cons_some in H as (s' & Hs' & ->).
      apply IH in Hs'; [|simpl in Hlen; lia].
      apply andb_true_iff in H3 as [Ha Hb].
      apply andb_true_iff in Hc as [Hc Hsur]. apply andb_true_iff in Hc as [Hc Hm].
      apply andb_true_iff in Hc as [Hc1 Hc2]. apply negb_true_iff in Hsur.
      apply N.leb_le in Ha, Hb, Hm.
      cbn [utf8_encode].
      now rewrite (encode_cp_3 _ _ _ Ha Hb Hc1 Hc2 Hm Hsur), Hs', !byte_of_to_N. }
    destruct ((240 <=? Byte.to_N b0) && (Byte.to_N b0 <=? 247)) eqn:H4; [|discriminate].
    destruct r0 as [|b1 [|b2 [|b3 r3]]]; try discriminate.
    match goal with |- (if ?c then _ else _) = _ -> _ => destruct c eqn:Hc end;
      [|discriminate].
    intros H. apply option_map_cons_some in H as (s' & Hs' & ->).
    apply IH in Hs'; [|simpl in Hlen; lia].
    apply andb_true_iff in H4 as [Ha Hb].
    apply andb_true_iff in Hc as [Hc Hmax]. apply andb_true_iff in Hc as [Hc Hm].
    apply andb_true_iff in Hc as [Hc Hc3]. apply andb_true_iff in Hc as [Hc1 Hc2].
    apply N.leb_le in Ha, Hb, Hm. apply N.ltb_lt in Hmax.
    cbn [utf8_encode].
    now rewrite (encode_cp_4 _ _ _ _ Ha Hb Hc1 Hc2 Hc3 Hm Hmax), Hs', !byte_of_to_N.
Qed.

Lemma utf8_decode_encode (b : bytes) (s : str) :
  utf8_decode b = Some s -> utf8_encode s = Some b.
Proof. apply (utf8_decode_encode_upto (List.length b)). apply le_n. Qed.





(* ================================================================== *)
(** ** Pages of [.html] files *)
(* ================================================================== *)



Lemma lookup_values_in (self : request) (name : str) (v : pyval) :
  lookup (values self) name = Some v ->
  In name [lit "date_time"; lit "client_host"; lit "client_port";
           lit "command"; lit "path"].
Proof.
  unfold values. cbn [lookup].
  repeat match goal with
  | |- context [str_eqb ?k name] =>
      let E := fresh "E" in
      destruct (str_eqb k name) eqn:E;
      [apply str_eqb_eq in E; intros _; rewrite <- E; simpl; tauto|]
  end.
  discriminate.
Qed.

(** Looking a field name up in [values] succeeds for the five keys and
    for nothing else: none of them is empty or a number. *)
Lemma field_value_values (max : N) (self : request) (name : str) (v : pyval) :
  field_value max (values self) name = inr v <-> lookup (values self) name = Some v.
Proof.
  split.
  - unfold field_value. destruct (get_integer max name); try discriminate.
    destruct name; [discriminate|].
    destruct (lookup (values self) (n :: name)); [|discriminate].
    now intros [= ->].
  - intros H. pose proof (lookup_values_in self name v H) as Hin.
    cbn [In] in Hin.
    destruct Hin as [<-|[<-|[<-|[<-|[<-|[]]]]]];
      cbn [values lookup] in H; vm_compute in H; inversion H; subst; reflexivity.
Qed.

Lemma field_value_unknown (max : N) (self : request) (name : str) :
  ~ In name [lit "date_time"; lit "client_host"; lit "client_port";
             lit "command"; lit "path"] ->
  exists e, field_value max (values self) name = inl e.
Proof.
  intros Hnot. destruct (field_value max (values self) name) as [e|v] eqn:Hv; [eauto|].
  apply field_value_values in Hv. apply lookup_values_in in Hv. contradiction.
Qed.








(* ================================================================== *)
(** ** Further properties: the path that is looked up *)
(* ================================================================== *)

Lemma lit_inj (s s' : string) : lit s = lit s' -> s = s'.
Proof.
  unfold lit. intros H.
  rewrite <- (string_of_list_byte_of_string s), <- (string_of_list_byte_of_string s').
  f_equal. revert H.
  generalize (list_byte_of_string s) (list_byte_of_string s').
  induction l as [|b l IH]; intros [|b' l']; simpl; try discriminate; auto.
  intros H. inversion H as [[Hb Hl]]. f_equal; [|auto].
  pose proof (Byte.of_to_N b) as E. rewrite Hb, Byte.of_to_N in E. congruence.
Qed.

(** The default page is looked up for ["/"] and for the paths made of
    whitespace only (the empty path among them), and for no other path. *)
Theorem root_requested_iff (self : request) :
  root_requested self = true <->
  path self = "/"%string \/ Forall (fun c => is_space c = true) (self_path self).
Proof.
  unfold root_requested. rewrite orb_true_iff, !str_eqb_eq, strip_empty_iff.
  unfold self_path. split; intros [H|H]; auto.
  - left. apply lit_inj. exact H.
  - left. now rewrite H.
Qed.

Lemma lstrip_no_lead (chars s : str) (c : N) (rest : str) :
  lstrip chars s = c :: rest -> mem chars c = false.
Proof.
  unfold lstrip. induction s as [|x s IH]; simpl; [discriminate|].
  destruct (mem chars x) eqn:Hx; [exact IH|].
  intros H. inversion H; subst. exact Hx.
Qed.

Lemma lstrip_slash_not_absolute (s : str) :
  starts_with N.eqb (lstrip (lit "/") s) (lit "/") = false.
Proof.
  destruct (lstrip (lit "/") s) as [|c rest] eqn:E; [reflexivity|].
  apply lstrip_no_lead in E. change (lit "/") with [47] in *.
  cbn [starts_with]. cbn [mem existsb] in E.
  rewrite orb_false_r in E. rewrite N.eqb_sym, E. reflexivity.
Qed.

Lemma os_path_join_relative (a b : str) :
  starts_with N.eqb b (lit "/") = false ->
  exists sep, (sep = [] \/ sep = lit "/") /\ os_path_join a b = a ++ sep ++ b.
Proof.
  intros H. unfold os_path_join. rewrite H.
  destruct (match a with [] => true | _ :: _ => endswith a (lit "/") end).
  - exists []. auto.
  - exists (lit "/"). auto.
Qed.

(** Whatever the request path, the path [do_GET] looks up is the working
    directory followed by more text: stripping the leading slashes keeps
    [os.path.join] from dropping the working directory for an absolute
    request path. *)
Theorem file_path_extends_getcwd (fs : filesystem) (self : request) :
  exists rest, file_path fs self = getcwd fs ++ rest.
Proof.
  unfold file_path. destruct (root_requested self).
  - destruct (os_path_join_relative (getcwd fs) (lit "index.html") eq_refl)
      as (sep & _ & ->). eauto.
  - destruct (os_path_join_relative (getcwd fs) (lstrip (lit "/") (self_path self))
                (lstrip_slash_not_absolute _)) as (sep & _ & ->). eauto.
Qed.

Lemma lstrip_slashes (n : nat) (s : str) :
  lstrip (lit "/") (repeat 47 n ++ s) = lstrip (lit "/") s.
Proof. induction n as [|n IH]; [reflexivity|exact IH]. Qed.

(** Leading slashes of the request path do not count: two request paths
    that differ by leading slashes only are joined to the same path. *)
Theorem leading_slashes_are_ignored (fs : filesystem) (self self' : request)
    (n : nat) :
  self_path self' = repeat 47 n ++ self_path self ->
  joined_path fs self' = joined_path fs self.
Proof. intros H. unfold joined_path. now rewrite H, lstrip_slashes. Qed.

Lemma leading_slashes_are_ignored_witness :
  self_path (Example.GET "///notes.txt") = repeat 47 2 ++ self_path (Example.GET "/notes.txt") /\
  joined_path Example.disk (Example.GET "///notes.txt") = lit "/srv/www/notes.txt".
Proof.
  split; [reflexivity|].
  rewrite (leading_slashes_are_ignored Example.disk (Example.GET "/notes.txt")
             (Example.GET "///notes.txt") 2 eq_refl).
  reflexivity.
Defined.

(* ================================================================== *)
(** ** Further properties: error pages *)
(* ================================================================== *)

Lemma handle_error_cases (rt : runtime) (self : request) (code : N) (msg : str)
    (h : handler) :
  (exists body,
     utf8_encode (error_page_text code (self_path self) msg
                    (lit (date_time_string self))) = Some body /\
     handle_error rt self code msg h = (inr tt, after h [] (response code body) []))
  \/ (utf8_encode msg = None /\
      handle_error rt self code msg h =
        (inl (UnicodeEncodeError
                (error_page_text code (self_path self) msg
                   (lit (date_time_string self)))), h)).
Proof.
  destruct (utf8_encode msg) as [bm|] eqn:Hm.
  - left. apply handle_error_run. exists bm. exact Hm.
  - right. split; [reflexivity|].
    unfold handle_error. rewrite format_Error_Page.
    unfold bind, lift, ret, encode, raise.
    destruct (utf8_encode (error_page_text _ _ _ _)) as [body|] eqn:Hb; [|reflexivity].
    destruct (error_page_contains _ _ _ _ _ Hb) as (_ & bm & _ & Hm' & _).
    congruence.
Qed.

(** [handle_error] answers with one complete response for every status
    code, every request path and every message the UTF-8 codec accepts:
    braces in the path or in the message are not taken for fields of
    [Error_Page], the header [Content-Length] is the number of octets of
    the body, and the body holds the encoded path and message. *)
Theorem handle_error_sends_page (rt : runtime) (self : request) (code : N)
    (msg : str) (h : handler) :
  encodable msg ->
  exists body bpath bmsg,
    handle_error rt self code msg h =
      (inr tt, after h [] [SendResponse code;
                           SendHeader (lit "Content-type") (lit "text/html");
                           SendHeader (lit "Content-Length")
                             (dec_nat (List.length body));
                           EndHeaders;
                           WfileWrite body] []) /\
    utf8_encode (error_page_text code (self_path self) msg
                   (lit (date_time_string self))) = Some body /\
    utf8_encode (self_path self) = Some bpath /\
    utf8_encode msg = Some bmsg /\
    bytes_contains body bpath = true /\
    bytes_contains body bmsg = true.
Proof.
  intros Hmsg.
  destruct (handle_error_run rt self code msg h Hmsg) as (body & Hbody & Hrun).
  destruct (error_page_contains _ _ _ _ _ Hbody) as (bp & bm & Hp & Hm & Cp & Cm).
  exists body, bp, bm. repeat split; assumption.
Qed.

Lemma handle_error_sends_page_witness :
  encodable (lit "no {such} field") /\
  statuses (snd (handle_error Example.rt (Example.GET "/a{b}c") 404
                   (lit "no {such} field") fresh)) = [404] /\
  bytes_contains
    (written (snd (handle_error Example.rt (Example.GET "/a{b}c") 404
                     (lit "no {such} field") fresh)))
    (Example.data "Error accessing /a{b}c") = true.
Proof.
  split; [apply encodable_lit|].
  destruct (handle_error_sends_page Example.rt (Example.GET "/a{b}c") 404
              (lit "no {such} field") fresh (encodable_lit _))
    as (body & bp & bm & Hrun & Hbody & _).
  rewrite Hrun. vm_compute in Hbody. inversion Hbody; subst body.
  split; vm_compute; reflexivity.
Defined.

(** The action of [case_no_file] sends one 404 response whose page holds
    the request path between quotes followed by "not found". *)
Theorem case_no_file_act_page (rt : runtime) (fs : filesystem) (self : request)
    (h : handler) :
  exists body bmsg,
    act (case_no_file rt fs self) h = (inr tt, after h [] (response 404 body) []) /\
    utf8_encode (lit "'" ++ self_path self ++ lit "' not found") = Some bmsg /\
    bytes_contains body bmsg = true.
Proof.
  assert (Hmsg : encodable (lit "'" ++ self_path self ++ lit "' not found")).
  { unfold self_path. auto with encodable. }
  destruct (handle_error_run rt self 404 _ h Hmsg) as (body & Hbody & Hrun).
  destruct (error_page_contains _ _ _ _ _ Hbody) as (bp & bm & _ & Hm & _ & Cm).
  exists body, bm. repeat split; assumption.
Qed.

(** The action of [case_always_fail] sends one 404 response whose page
    holds "Unknown object", the request path between quotes, and "or
    directory listing disabled." *)
Theorem case_always_fail_act_page (rt : runtime) (self : request) (h : handler) :
  exists body bmsg,
    act (case_always_fail rt self) h = (inr tt, after h [] (response 404 body) []) /\
    utf8_encode (lit "Unknown object '" ++ self_path self
                 ++ lit "' or directory listing disabled.") = Some bmsg /\
    bytes_contains body bmsg = true.
Proof.
  assert (Hmsg : encodable (lit "Unknown object '" ++ self_path self
                            ++ lit "' or directory listing disabled.")).
  { unfold self_path. auto with encodable. }
  destruct (handle_error_run rt self 404 _ h Hmsg) as (body & Hbody & Hrun).
  destruct (error_page_contains _ _ _ _ _ Hbody) as (bp & bm & _ & Hm & _ & Cm).
  exists body, bm. repeat split; assumption.
Qed.

(* ================================================================== *)
(** ** Further properties: exceptions and responses *)
(* ================================================================== *)

Lemma handle_file_raise_kind (rt : runtime) (fs : filesystem) (self : request)
    (p : str) (h h' : handler) (e : exn) :
  handle_file rt fs self p h = (inl e, h') ->
  is_IOError e = false /\ is_ServerException e = false /\
  h' = after h [Open p] [] [] /\
  (forall e0, read_file fs p = inl e0 ->
     e = AttributeError (lit "RequestHandler") (lit "send_error_page")).
Proof.
  rewrite handle_file_run.
  destruct (read_file fs p) as [e0|page] eqn:Hread.
  - intros H; inversion H; subst. auto.
  - destruct (endswith p (lit ".html")).
    + destruct (rendered rt self page) as [e1|page'] eqn:Hr; [|discriminate].
      intros H; inversion H; subst.
      destruct (rendered_error _ _ _ _ Hr). repeat split; auto. discriminate.
    + destruct (endswith p (lit ".txt")); discriminate.
Qed.

(** [handle_file] never passes an [IOError] to its caller and never sends
    the "I/O Error" page: a file that cannot be opened makes it raise the
    [AttributeError] of the lookup [self.send_error_page], and whenever it
    raises it has written nothing. *)
Theorem handle_file_hides_io_error (rt : runtime) (fs : filesystem) (self : request)
    (p : str) (h h' : handler) (e : exn) :
  handle_file rt fs self p h = (inl e, h') ->
  is_IOError e = false /\
  wfile h' = wfile h /\ stderr h' = stderr h /\
  (forall e0, read_file fs p = inl e0 ->
     e = AttributeError (lit "RequestHandler") (lit "send_error_page")).
Proof.
  intros H. destruct (handle_file_raise_kind _ _ _ _ _ _ _ H) as (Hio & _ & -> & Hattr).
  cbn [after wfile stderr]. rewrite !app_nil_r. auto.
Qed.

Lemma handle_file_hides_io_error_witness :
  read_file Example.disk (lit "/srv/www/secret") = inl (OSError EACCES (lit "/srv/www/secret")) /\
  fst (handle_file Example.rt Example.disk (Example.GET "/secret")
         (lit "/srv/www/secret") fresh)
  = inl (AttributeError (lit "RequestHandler") (lit "send_error_page")).
Proof.
  split; [reflexivity|].
  destruct (handle_file Example.rt Example.disk (Example.GET "/secret")
              (lit "/srv/www/secret") fresh) as [[e|u] h'] eqn:Hrun.
  - destruct (handle_file_hides_io_error _ _ _ _ _ _ _ Hrun) as (_ & _ & _ & Hattr).
    cbn [fst]. f_equal. apply (Hattr (OSError EACCES (lit "/srv/www/secret"))).
    reflexivity.
  - vm_compute in Hrun. discriminate.
Defined.

Lemma serve_raise_kind (rt : runtime) (fs : filesystem) (self : request)
    (p : str) (h h' : handler) (e : exn) :
  serve rt fs self p h = (inl e, h') ->
  is_IOError e = false /\ is_ServerException e = false.
Proof.
  destruct (os_path_exists fs p) eqn:Hex.
  - destruct (os_path_isfile fs p) eqn:Hfile.
    + rewrite (serve_file _ _ _ _ _ Hfile). intros H.
      destruct (handle_file_raise_kind _ _ _ _ _ _ _ H) as (? & ? & _). auto.
    + rewrite (serve_not_a_file _ _ _ _ _ Hex Hfile).
      edestruct handle_error_run as (body & _ & ->); [apply encodable_lit|].
      discriminate.
  - rewrite (serve_missing _ _ _ _ _ Hex).
    edestruct handle_error_run as (body & _ & ->); [apply encodable_lit|].
    discriminate.
Qed.

(** Nothing [do_GET] runs raises a [ServerException]: the clause
    [except ServerException] never takes an exception, and every 500 page
    carries the message "An unexpected error occurred: " followed by the
    text of the exception. *)
Theorem except_ServerException_never_runs (rt : runtime) (fs : filesystem)
    (self : request) (h h' : handler) (e : exn) :
  serve rt fs self (file_path fs self) h = (inl e, h') ->
  is_ServerException e = false /\
  on_exception rt self e h' =
    bind (print_stderr (lit "Unexpected Error: " ++ str_of_exn rt e))
      (fun _ => handle_error rt self 500
                  (lit "An unexpected error occurred: " ++ str_of_exn rt e)) h'.
Proof.
  intros H. destruct (serve_raise_kind _ _ _ _ _ _ _ H) as [_ Hse].
  split; [exact Hse|]. unfold on_exception. now rewrite Hse.
Qed.

Lemma except_ServerException_never_runs_witness :
  serve Example.rt Example.disk (Example.GET "/bad.html")
    (file_path Example.disk (Example.GET "/bad.html")) fresh
  = (inl (LookupError (lit "user")),
     after fresh [Exists (lit "/srv/www/bad.html"); Isfile (lit "/srv/www/bad.html");
                  Open (lit "/srv/www/bad.html")] [] []) /\
  is_ServerException (LookupError (lit "user")) = false.
Proof.
  split; [reflexivity|].
  apply (except_ServerException_never_runs Example.rt Example.disk
           (Example.GET "/bad.html") fresh
           (after fresh [Exists (lit "/srv/www/bad.html");
                         Isfile (lit "/srv/www/bad.html");
                         Open (lit "/srv/www/bad.html")] [] [])
           (LookupError (lit "user")) eq_refl).
Defined.

Lemma on_exception_out (rt : runtime) (self : request) (e : exn) (h : handler) :
  exists out,
    wfile (snd (on_exception rt self e h)) = wfile h ++ out /\
    (out = [] \/ exists body, out = response 500 body).
Proof.
  unfold on_exception, print_stderr, bind.
  destruct (is_ServerException e); cbv beta iota;
    match goal with |- context [handle_error rt self ?c ?m ?h0] =>
      destruct (handle_error_cases rt self c m h0) as [(body & _ & ->)|(_ & ->)]
    end; cbn [snd after wfile]; eauto.
  - exists []. rewrite app_nil_r. auto.
  - exists []. rewrite app_nil_r. auto.
Qed.

(** What [do_GET] can have written for a regular file. *)
Lemma do_GET_regular_outcomes (rt : runtime) (fs : filesystem) (self : request)
    (h : handler) :
  os_path_isfile fs (file_path fs self) = true ->
  exists out,
    wfile (snd (do_GET rt fs self h)) = wfile h ++ out /\
    (out = []
     \/ (exists body, out = response 500 body)
     \/ (exists content,
           read_file fs (file_path fs self) = inr content /\
           endswith (file_path fs self) (lit ".html") = false /\
           endswith (file_path fs self) (lit ".txt") = false /\
           out = file_response (lit "application/octet-stream") content)).
Proof.
  intros Hfile. rewrite (do_GET_regular _ _ _ _ Hfile), handle_file_run.
  assert (Hexn : forall e,
            exists out,
              wfile (snd (on_exception rt self e
                            (after (after h [Exists (file_path fs self);
                                             Isfile (file_path fs self)] [] [])
                               [Open (file_path fs self)] [] [])))
              = wfile h ++ out /\
              (out = [] \/ (exists body, out = response 500 body))).
  { intros e.
    destruct (on_exception_out rt self e
                (after (after h [Exists (file_path fs self);
                                 Isfile (file_path fs self)] [] [])
                   [Open (file_path fs self)] [] [])) as (out & Hw & Hout).
    exists out. split; [|exact Hout].
    rewrite Hw. cbn [after wfile]. now rewrite !app_nil_r. }
  destruct (read_file fs (file_path fs self)) as [e0|page] eqn:Hread.
  { destruct (Hexn (AttributeError (lit "RequestHandler") (lit "send_error_page")))
      as (out & Hw & [->|Hout]); eauto. }
  destruct (endswith (file_path fs self) (lit ".html")) eqn:Hhtml.
  - destruct (rendered rt self page) as [e|page'].
    + destruct (Hexn e) as (out & Hw & [->|Hout]); eauto.
    + exists []. cbn [snd after wfile]. rewrite !app_nil_r. auto.
  - destruct (endswith (file_path fs self) (lit ".txt")) eqn:Htxt.
    + exists []. cbn [snd after wfile]. rewrite !app_nil_r. auto.
    + exists (file_response (lit "application/octet-stream") page).
      cbn [snd after wfile]. rewrite !app_nil_r. split; [reflexivity|].
      right. right. exists page. auto.
Qed.

(** What [do_GET] can have written when it is over. *)
Lemma do_GET_outcomes (rt : runtime) (fs : filesystem) (self : request) (h : handler) :
  exists out,
    wfile (snd (do_GET rt fs self h)) = wfile h ++ out /\
    (out = []
     \/ (exists body, out = response 404 body)
     \/ (exists body, out = response 500 body)
     \/ (exists content,
           os_path_isfile fs (file_path fs self) = true /\
           read_file fs (file_path fs self) = inr content /\
           endswith (file_path fs self) (lit ".html") = false /\
           endswith (file_path fs self) (lit ".txt") = false /\
           out = file_response (lit "application/octet-stream") content)).
Proof.
  destruct (os_path_exists fs (file_path fs self)) eqn:Hex.
  - destruct (os_path_isfile fs (file_path fs self)) eqn:Hfile.
    + destruct (do_GET_regular_outcomes rt fs self h Hfile)
        as (out & Hw & [->|[Hout|(content & Hr & Hh & Ht & ->)]]);
        eexists; (split; [exact Hw|]); eauto 10.
    + destruct (do_GET_not_a_file rt fs self h Hex Hfile) as (body & _ & ->).
      exists (response 404 body). cbn [snd after wfile]. eauto 6.
  - destruct (do_GET_missing rt fs self h Hex) as (body & _ & ->).
    exists (response 404 body). cbn [snd after wfile]. eauto 6.
Qed.

(** [do_GET] never sends more than one response, and a response it sends
    is complete: a status line with status 200, 404 or 500, a content
    type header, a [Content-Length] header that counts the octets of the
    body, the end of the headers, and the body. *)
Theorem do_GET_sends_at_most_one_response (rt : runtime) (fs : filesystem)
    (self : request) (h : handler) :
  exists out,
    wfile (snd (do_GET rt fs self h)) = wfile h ++ out /\
    (out = [] \/
     exists code keyword content_type body,
       (code = 200 \/ code = 404 \/ code = 500) /\
       out = [SendResponse code;
              SendHeader keyword content_type;
              SendHeader (lit "Content-Length") (dec_nat (List.length body));
              EndHeaders;
              WfileWrite body]).
Proof.
  destruct (do_GET_outcomes rt fs self h)
    as (out & Hw & [->|[(body & ->)|[(body & ->)|(content & _ & _ & _ & _ & ->)]]]);
    eexists; (split; [exact Hw|]); [left; reflexivity|right..];
    unfold response, file_response; eauto 10.
Qed.

(** A response with status 200 is sent for a regular file whose name
    ends in neither [.html] nor [.txt], and for nothing else; its body is
    the content of the file, octet for octet. *)
Theorem status_200_is_the_file (rt : runtime) (fs : filesystem) (self : request)
    (h : handler) :
  wfile h = [] ->
  In 200 (statuses (snd (do_GET rt fs self h))) ->
  exists content,
    os_path_isfile fs (file_path fs self) = true /\
    read_file fs (file_path fs self) = inr content /\
    endswith (file_path fs self) (lit ".html") = false /\
    endswith (file_path fs self) (lit ".txt") = false /\
    written (snd (do_GET rt fs self h)) = content.
Proof.
  intros Hh. unfold statuses, written.
  destruct (do_GET_outcomes rt fs self h)
    as (out & -> & [->|[(body & ->)|[(body & ->)|(content & Hf & Hr & Hh1 & Ht & ->)]]]);
    rewrite Hh; cbn [app response file_response flat_map In].
  - tauto.
  - intros [H|[]]. discriminate.
  - intros [H|[]]. discriminate.
  - intros _. exists content. rewrite app_nil_r. auto.
Qed.

Lemma status_200_is_the_file_witness :
  In 200 (statuses (snd (do_GET Example.rt Example.disk (Example.GET "/data.bin") fresh))) /\
  written (snd (do_GET Example.rt Example.disk (Example.GET "/data.bin") fresh))
  = Example.data "abc".
Proof.
  assert (H200 : In 200 (statuses (snd (do_GET Example.rt Example.disk
                                          (Example.GET "/data.bin") fresh)))).
  { left. reflexivity. }
  split; [exact H200|].
  destruct (status_200_is_the_file Example.rt Example.disk (Example.GET "/data.bin")
              fresh eq_refl H200) as (content & _ & Hread & _ & _ & ->).
  vm_compute in Hread. now inversion Hread.
Defined.

(** [do_GET] returns to [http.server] without an exception, whenever the
    text of the exception its [try] block raised, if it raised one, is
    text the UTF-8 codec accepts. *)
Theorem do_GET_returns (rt : runtime) (fs : filesystem) (self : request)
    (h : handler) :
  (forall e h', serve rt fs self (file_path fs self) h = (inl e, h') ->
                encodable (str_of_exn rt e)) ->
  fst (do_GET rt fs self h) = inr tt.
Proof.
  intros Henc.
  destruct (serve rt fs self (file_path fs self) h) as [[e|[]] h'] eqn:Hserve.
  - destruct (do_GET_exception rt fs self h h' e (Henc e h' eq_refl) Hserve)
      as (calls & body & _ & _ & ->). reflexivity.
  - rewrite do_GET_run, Hserve. reflexivity.
Qed.

Lemma do_GET_returns_witness :
  fst (do_GET Example.rt Example.disk (Example.GET "/bad.html") fresh) = inr tt.
Proof.
  apply (do_GET_returns Example.rt Example.disk (Example.GET "/bad.html") fresh).
  intros e h' H. vm_compute in H. inversion H. eexists. vm_compute. reflexivity.
Defined.

(* ================================================================== *)
(** ** Further properties: pages of [.html] files without fields *)
(* ================================================================== *)

Lemma format_no_brace (rt : runtime) (s : str) (kw : kwargs) :
  no_brace s = true -> format rt s kw = inr s.
Proof.
  intros H. unfold format.
  pose proof (format_text_literal rt kw (format_text rt kw too_deep) s [] H) as E.
  rewrite app_nil_r in E. rewrite E.
  change (format_text rt kw (format_text rt kw too_deep) []) with (@inr exn str []).
  cbn [prepend]. now rewrite app_nil_r.
Qed.

(** An [.html] file that is valid UTF-8 and has no brace in it comes out
    of the templating of [handle_file] octet for octet as it went in,
    whatever the request. *)
Theorem html_without_braces_is_unchanged (rt : runtime) (self : request)
    (content : bytes) (page_str : str) (h : handler) :
  utf8_decode content = Some page_str ->
  no_brace page_str = true ->
  html_page rt self content h = (inr content, h).
Proof.
  intros Hdec Hplain. rewrite html_page_run. unfold rendered.
  now rewrite Hdec, (format_no_brace rt _ (values self) Hplain),
    (utf8_decode_encode _ _ Hdec).
Qed.

Lemma html_without_braces_is_unchanged_witness :
  utf8_decode (Example.data "<p>hello</p>") = Some (lit "<p>hello</p>") /\
  html_page Example.rt (Example.GET "/") (Example.data "<p>hello</p>") fresh
  = (inr (Example.data "<p>hello</p>"), fresh).
Proof.
  split; [reflexivity|].
  apply (html_without_braces_is_unchanged Example.rt (Example.GET "/")
           (Example.data "<p>hello</p>") (lit "<p>hello</p>") fresh);
    reflexivity.
Defined.

(* ================================================================== *)
(** ** Further properties: the rule classes *)
(* ================================================================== *)

(** The test of [case_default_page] succeeds exactly when the root page
    is requested and [index.html] in the working directory is a regular
    file.  For any other request it leaves the handler as it was; for a
    request of the root page it leaves [index.html] in [full_path] even
    when it fails. *)
Theorem case_default_page_test_result (rt : runtime) (fs : filesystem)
    (self : request) (h : handler) :
  fst (test (case_default_page rt fs self) h)
    = inr (root_requested self && os_path_isfile fs (index_html fs)) /\
  (root_requested self = false -> snd (test (case_default_page rt fs self) h) = h) /\
  (root_requested self = true ->
   full_path (snd (test (case_default_page rt fs self) h)) = Some (index_html fs)).
Proof.
  destruct (root_requested self) eqn:Hroot.
  - destruct (case_default_page_test_root rt fs self h Hroot) as [Hres Hfull].
    split; [exact Hres|]. split; [discriminate|]. intros _. exact Hfull.
  - unfold case_default_page, test. rewrite Hroot. cbn [ret fst snd andb].
    split; [reflexivity|]. split; [reflexivity|discriminate].
Qed.

(** The test of [case_existing_file] answers [False] without a call on
    the filesystem when nothing has put [full_path] on the handler, and
    its action raises the [AttributeError] of the missing attribute. *)
Theorem case_existing_file_without_full_path (rt : runtime) (fs : filesystem)
    (self : request) (h : handler) :
  full_path h = None ->
  test (case_existing_file rt fs self) h = (inr false, h) /\
  act (case_existing_file rt fs self) h
    = (inl (AttributeError (lit "RequestHandler") (lit "full_path")), h).
Proof.
  intros Hnone. unfold case_existing_file, test, act, hasattr_full_path,
    get_full_path, bind, ret. now rewrite Hnone.
Qed.

Lemma case_existing_file_without_full_path_witness :
  full_path fresh = None /\
  test (case_existing_file Example.rt Example.disk (Example.GET "/notes.txt")) fresh
    = (inr false, fresh).
Proof.
  split; [reflexivity|].
  apply (case_existing_file_without_full_path Example.rt Example.disk
           (Example.GET "/notes.txt") fresh eq_refl).
Defined.

(** The test of [case_no_file] puts the joined request path in
    [full_path], whatever was there, and succeeds exactly when that path
    does not exist.  The test of [case_existing_file] run after it
    therefore finds [full_path], asks [os.path.isfile] about the joined
    path, and cannot succeed when [case_no_file] did. *)
Theorem case_no_file_then_existing_file (rt : runtime) (fs : filesystem)
    (self : request) (h : handler) :
  fst (test (case_no_file rt fs self) h)
    = inr (negb (os_path_exists fs (joined_path fs self))) /\
  full_path (snd (test (case_no_file rt fs self) h)) = Some (joined_path fs self) /\
  fst (test (case_existing_file rt fs self) (snd (test (case_no_file rt fs self) h)))
    = inr (os_path_isfile fs (joined_path fs self)) /\
  fs_calls (snd (test (case_existing_file rt fs self)
                   (snd (test (case_no_file rt fs self) h))))
    = fs_calls h ++ [Exists (joined_path fs self); Isfile (joined_path fs self)] /\
  negb (os_path_exists fs (joined_path fs self))
  && os_path_isfile fs (joined_path fs self) = false.
Proof.
  unfold case_no_file, case_existing_file, test, set_full_path, get_full_path,
    hasattr_full_path, exists_, isfile_, record_call, bind, ret.
  cbn [fst snd full_path fs_calls negb]. fold (joined_path fs self).
  repeat split.
  - now rewrite <- app_assoc.
  - destruct (os_path_isfile fs (joined_path fs self)) eqn:Hfile.
    + now rewrite (isfile_exists _ _ Hfile).
    + apply andb_false_r.
Qed.

(** Read in the order of [Cases], the four tests leave no request
    without a rule: when the tests of [case_default_page], [case_no_file]
    and [case_existing_file] have all failed, the joined request path
    exists and is not a regular file, and [case_always_fail] takes it. *)
Theorem case_always_fail_takes_the_rest (rt : runtime) (fs : filesystem)
    (self : request) (h : handler) :
  fst (test (case_no_file rt fs self) h) = inr false ->
  fst (test (case_existing_file rt fs self) (snd (test (case_no_file rt fs self) h)))
    = inr false ->
  os_path_exists fs (joined_path fs self) = true /\
  os_path_isfile fs (joined_path fs self) = false /\
  forall h', test (case_always_fail rt self) h' = (inr true, h').
Proof.
  unfold case_no_file, case_existing_file, case_always_fail, test, set_full_path,
    get_full_path, hasattr_full_path, exists_, isfile_, record_call, bind, ret.
  cbn [fst snd full_path fs_calls negb]. fold (joined_path fs self).
  intros Hex Hfile. injection Hex as Hex'. injection Hfile as Hfile'.
  apply negb_false_iff in Hex'. split; [exact Hex'|]. split; [exact Hfile'|].
  intros h'. reflexivity.
Qed.

Lemma case_always_fail_takes_the_rest_witness :
  os_path_exists Example.disk (joined_path Example.disk (Example.GET "/subdir")) = true /\
  os_path_isfile Example.disk (joined_path Example.disk (Example.GET "/subdir")) = false.
Proof.
  destruct (case_always_fail_takes_the_rest Example.rt Example.disk
              (Example.GET "/subdir") fresh eq_refl eq_refl) as (Hex & Hfile & _).
  split; assumption.
Defined.

(* ================================================================== *)
(** ** Further properties: when the status is 404 *)
(* ================================================================== *)

(** [do_GET] answers 404 exactly when the path it looks up is not a
    regular file: a missing path, a directory and a special file get a
    404 page, and a regular file never does. *)
Theorem status_404_iff_not_regular (rt : runtime) (fs : filesystem)
    (self : request) (h : handler) :
  wfile h = [] ->
  (In 404 (statuses (snd (do_GET rt fs self h)))
   <-> os_path_isfile fs (file_path fs self) = false).
Proof.
  intros Hh. unfold statuses. split.
  - intros H404. destruct (os_path_isfile fs (file_path fs self)) eqn:Hfile;
      [exfalso|reflexivity].
    destruct (do_GET_regular_outcomes rt fs self h Hfile)
      as (out & Hw & [->|[(body & ->)|(content & _ & _ & _ & ->)]]);
      rewrite Hw, Hh in H404; cbn [app response file_response flat_map In] in H404.
    + exact H404.
    + destruct H404 as [H|[]]. discriminate.
    + destruct H404 as [H|[]]. discriminate.
  - intros Hfile.
    destruct (os_path_exists fs (file_path fs self)) eqn:Hex.
    + destruct (do_GET_not_a_file rt fs self h Hex Hfile) as (body & _ & ->).
      cbn [snd after wfile]. rewrite Hh. left. reflexivity.
    + destruct (do_GET_missing rt fs self h Hex) as (body & _ & ->).
      cbn [snd after wfile]. rewrite Hh. left. reflexivity.
Qed.

Lemma status_404_iff_not_regular_witness :
  os_path_isfile Example.disk (file_path Example.disk (Example.GET "/subdir")) = false /\
  In 404 (statuses (snd (do_GET Example.rt Example.disk (Example.GET "/subdir") fresh))).
Proof.
  split; [reflexivity|].
  apply (status_404_iff_not_regular Example.rt Example.disk (Example.GET "/subdir")
           fresh eq_refl).
  reflexivity.
Defined.

(** A 500 page is sent only for a regular file that cannot be read, or
    for an [.html] file whose decoding or formatting raises; a missing
    path, a directory, and a file of another kind that can be read never
    get one. *)
Theorem status_500_only_for_failed_file (rt : runtime) (fs : filesystem)
    (self : request) (h : handler) :
  wfile h = [] ->
  In 500 (statuses (snd (do_GET rt fs self h))) ->
  os_path_isfile fs (file_path fs self) = true /\
  ((exists e0, read_file fs (file_path fs self) = inl e0)
   \/ (exists page e,
         read_file fs (file_path fs self) = inr page /\
         endswith (file_path fs self) (lit ".html") = true /\
         rendered rt self page = inl e)).
Proof.
  intros Hh. unfold statuses.
  destruct (os_path_isfile fs (file_path fs self)) eqn:Hfile.
  - intros H500. split; [reflexivity|]. revert H500.
    rewrite (do_GET_regular _ _ _ _ Hfile), handle_file_run.
    destruct (read_file fs (file_path fs self)) as [e0|page]; [eauto|].
    destruct (endswith (file_path fs self) (lit ".html")).
    + destruct (rendered rt self page) as [e|page'] eqn:Hr.
      { intros _. right. exists page, e. auto. }
      cbn [snd after wfile]. rewrite Hh. intros [].
    + destruct (endswith (file_path fs self) (lit ".txt"));
        cbn [snd after wfile]; rewrite Hh; cbn [app file_response flat_map In].
      * intros [].
      * intros [H|[]]. discriminate.
  - destruct (os_path_exists fs (file_path fs self)) eqn:Hex.
    + destruct (do_GET_not_a_file rt fs self h Hex Hfile) as (body & _ & ->).
      cbn [snd after wfile]. rewrite Hh. cbn [app response flat_map In].
      intros [H|[]]. discriminate.
    + destruct (do_GET_missing rt fs self h Hex) as (body & _ & ->).
      cbn [snd after wfile]. rewrite Hh. cbn [app response flat_map In].
      intros [H|[]]. discriminate.
Qed.

Lemma status_500_only_for_failed_file_witness :
  In 500 (statuses (snd (do_GET Example.rt Example.disk (Example.GET "/secret") fresh))) /\
  os_path_isfile Example.disk (file_path Example.disk (Example.GET "/secret")) = true.
Proof.
  assert (H500 : In 500 (statuses (snd (do_GET Example.rt Example.disk
                                          (Example.GET "/secret") fresh)))).
  { left. reflexivity. }
  split; [exact H500|].
  apply (status_500_only_for_failed_file Example.rt Example.disk (Example.GET "/secret")
           fresh eq_refl H500).
Defined.
